(** * nacltoons physics layer: strokes, rigid bodies and sprite bounds

    A shallow embedding of [src/nacltoons/src/physics_layer.cc] and the
    properties its specification states about it.

    Number model.  The C [float] values of the source are read in the real
    model: a [float] is a real number and [+ - * /], [sqrtf], comparisons
    are the exact operations of [R].  Rounding, infinities and NaN are not
    represented.  Conversions to [int] truncate toward zero, as in C.
    Where the source divides, the statements below first establish that the
    divisor is positive, so that nothing rests on the value [R] gives to a
    division by zero.

    One number is kept apart: the distance between two points.  The test
    of the skip rule and the number of stamps of a line depend on which
    side of a threshold the number the program holds falls, and the
    binary32 result of [ccpDistance] can fall on the other side than the
    exact distance.  What is said about these is said for every number the
    call may return ([distance_of], section [ComputedDistance]).

    The functions of cocos2d-x ([ccpDistance], [MAX], the scene graph),
    of Box2D ([b2Mul], [SetAsBox], [CreateFixture]) and of the C library
    ([atan2]) that the file calls are written out after the libraries' own
    definitions.  Failing assertions and accesses through a null pointer
    or outside a sequence make the operation return [None]. *)

From Stdlib Require Import Reals Lra Lia ZArith List Bool Permutation.
Import ListNotations.

Local Open Scope R_scope.

(** ** Numbers *)

(** [(int) x] for a [float] [x]: truncation toward zero.  (C defines the
    conversion for values within the range of [int]; brush radii and
    distances on a screen are.) *)
Definition float_to_int (x : R) : Z :=
  if Rle_dec 0 x then Int_part x else (- Int_part (- x))%Z.

(** [FLT_MAX] of [<float.h>], the largest finite binary32 value,
    [(2^24 - 1) * 2^104]. *)
Definition FLT_MAX : R := IZR (16777215 * 2 ^ 104).

(** [MAX(a, b)] of cocos2d-x: [((a) < (b)) ? (b) : (a)]. *)
Definition MAX (a b : R) : R := if Rlt_dec a b then b else a.

(** ** Coordinate conversion (lines 7-11) *)

Definition PTM_RATIO : R := 32.
Definition SCREEN_TO_WORLD (n : R) : R := n / PTM_RATIO.
Definition WORLD_TO_SCREEN (n : R) : R := n * PTM_RATIO.

Definition DEFAULT_DENSITY : R := 1.
Definition DEFAULT_FRICTION : R := 2 / 10.
Definition DEFAULT_RESTITUTION : R := 1 / 10.

(** ** cocos2d-x geometry *)

Record CCPoint : Type := ccp { pt_x : R; pt_y : R }.
Record CCSize : Type := CCSizeMake { width : R; height : R }.
Record CCRect : Type := mkCCRect { origin : CCPoint; size : CCSize }.

Definition CCRectMake (x y w h : R) : CCRect :=
  {| origin := ccp x y; size := CCSizeMake w h |}.

(** [ccpDistance] of cocos2d-x (CCPointExtension.h), in exact
    arithmetic: the Euclidean distance.  The program computes it in
    binary32; see [distance_of] below for the number it holds. *)
Definition ccpSub (v1 v2 : CCPoint) : CCPoint :=
  ccp (pt_x v1 - pt_x v2) (pt_y v1 - pt_y v2).
Definition ccpDot (v1 v2 : CCPoint) : R :=
  pt_x v1 * pt_x v2 + pt_y v1 * pt_y v2.
Definition ccpLengthSQ (v : CCPoint) : R := ccpDot v v.
Definition ccpLength (v : CCPoint) : R := sqrt (ccpLengthSQ v).
Definition ccpDistance (v1 v2 : CCPoint) : R := ccpLength (ccpSub v1 v2).

(** ** Box2D data *)

Record b2Vec2 : Type := mkVec2 { vx : R; vy : R }.

(** A rotation stores the sine and cosine of its angle. *)
Record b2Rot : Type := mkRot { rot_s : R; rot_c : R }.
Record b2Transform : Type := mkTransform { xf_p : b2Vec2; xf_q : b2Rot }.

Definition b2Rot_Set (angle : R) : b2Rot :=
  {| rot_s := sin angle; rot_c := cos angle |}.

(** [b2Mul(const b2Transform&, const b2Vec2&)]: rotate, then translate. *)
Definition b2Mul (T : b2Transform) (v : b2Vec2) : b2Vec2 :=
  {| vx := (rot_c (xf_q T) * vx v - rot_s (xf_q T) * vy v) + vx (xf_p T);
     vy := (rot_s (xf_q T) * vx v + rot_c (xf_q T) * vy v) + vy (xf_p T) |}.

(** The two shape classes the layer meets: [b2CircleShape] with its local
    centre [m_p] and [m_radius], and [b2PolygonShape] with its
    [m_vertices] (their number is [m_vertexCount]). *)
Inductive b2Shape : Type :=
| b2CircleShape (m_p : b2Vec2) (m_radius : R)
| b2PolygonShape (m_vertices : list b2Vec2).

(** [b2PolygonShape::SetAsBox(hx, hy, center, angle)]: the four corners of
    the axis-aligned box, moved by the transform of [center] and [angle]. *)
Definition SetAsBox (hx hy : R) (center : b2Vec2) (angle : R) : b2Shape :=
  let xf := {| xf_p := center; xf_q := b2Rot_Set angle |} in
  b2PolygonShape
    (map (b2Mul xf)
       [ mkVec2 (- hx) (- hy); mkVec2 hx (- hy); mkVec2 hx hy; mkVec2 (- hx) hy ]).

Record b2Fixture : Type := mkFixture {
  m_shape : b2Shape;
  m_density : R;
  m_friction : R;
  m_restitution : R
}.

(** A body: its world transform and its fixture list.  [CreateFixture]
    links the new fixture in front of the list, and [GetFixtureList]
    walks it from the front. *)
Record b2Body : Type := mkBody {
  m_xf : b2Transform;
  m_fixtureList : list b2Fixture
}.

Definition GetPosition (body : b2Body) : b2Vec2 := xf_p (m_xf body).
Definition GetTransform (body : b2Body) : b2Transform := m_xf body.

Definition CreateFixture (body : b2Body) (def : b2Fixture) : b2Body :=
  {| m_xf := m_xf body; m_fixtureList := def :: m_fixtureList body |}.

(** [b2World::CreateBody] for a definition with the given position and the
    default angle [0]. *)
Definition CreateBody (position : b2Vec2) : b2Body :=
  {| m_xf := {| xf_p := position; xf_q := b2Rot_Set 0 |};
     m_fixtureList := [] |}.

(** ** CalcBodyBounds (lines 228-280) *)

(** The four running extremes of the loop. *)
Record Extremes : Type := mkExtremes { minX : R; maxX : R; minY : R; maxY : R }.

(** The four conditional updates of the loop body on the candidate
    extents [lox], [hix], [loy], [hiy]: lines 243-250 for a circle
    (centre minus and plus the radius), lines 259-266 for a vertex (its
    own coordinates). *)
Definition update_extremes (e : Extremes) (lox hix loy hiy : R) : Extremes :=
  let minX := if Rlt_dec lox (minX e) then lox else minX e in
  let maxX := if Rgt_dec hix (maxX e) then hix else maxX e in
  let minY := if Rlt_dec loy (minY e) then loy else minY e in
  let maxY := if Rgt_dec hiy (maxY e) then hiy else maxY e in
  mkExtremes minX maxX minY maxY.

Definition bounds_of_fixture (xform : b2Transform) (e : Extremes) (f : b2Fixture)
  : Extremes :=
  match m_shape f with
  | b2CircleShape m_p m_radius =>
      let center := b2Mul xform m_p in
      update_extremes e
        (vx center - m_radius) (vx center + m_radius)
        (vy center - m_radius) (vy center + m_radius)
  | b2PolygonShape m_vertices =>
      fold_left
        (fun e v =>
           let vertex := b2Mul xform v in
           update_extremes e (vx vertex) (vx vertex) (vy vertex) (vy vertex))
        m_vertices e
  end.

(** Lines 231-234: the values the extremes start from. *)
Definition initial_extremes : Extremes :=
  {| minX := FLT_MAX; maxX := 0; minY := FLT_MAX; maxY := 0 |}.

(** [s] is the window size [CCDirector::sharedDirector()->getWinSize()]. *)
Definition CalcBodyBounds (s : CCSize) (body : b2Body) : CCRect :=
  let xform := GetTransform body in
  let e := fold_left (bounds_of_fixture xform) (m_fixtureList body)
             initial_extremes in
  let maxX := WORLD_TO_SCREEN (maxX e) in
  let minX := WORLD_TO_SCREEN (minX e) in
  let maxY := WORLD_TO_SCREEN (maxY e) in
  let minY := WORLD_TO_SCREEN (minY e) in
  let width' := maxX - minX in
  let height' := maxY - minY in
  let remY := height s - maxY in
  CCRectMake minX remY width' height'.

(** ** The layer and its scene graph *)

(** The offscreen render target: the scene-graph node it is, and the brush
    stamps drawn into it so far, oldest first. *)
Record CCRenderTexture : Type := mkRenderTexture {
  rt_node : nat;
  rt_stamps : list CCPoint
}.

(** What [CreatePhysicsSprite] gives a sprite: the texture (the image of
    the render target), the texture rectangle, the body and the anchor. *)
Record CCPhysicsSprite : Type := mkSprite {
  sp_texture : list CCPoint;
  sp_rect : CCRect;
  sp_body : b2Body;
  sp_anchor : CCPoint
}.

(** A child of the layer.  [node_id] stands for the address of the node:
    the source compares children with [render_target_] by pointer. *)
Record CCNode : Type := mkNode {
  node_id : nat;
  m_bVisible : bool;
  node_sprite : option CCPhysicsSprite
}.

Definition setVisible (v : bool) (n : CCNode) : CCNode :=
  {| node_id := node_id n; m_bVisible := v; node_sprite := node_sprite n |}.

Record CCTouch : Type := mkTouch {
  getID : Z;
  getLocation : CCPoint;
  getPreviousLocation : CCPoint
}.

Record PhysicsLayer : Type := mkLayer {
  current_touch_id_ : Z;
  render_target_ : option CCRenderTexture;      (* [None] is [NULL] *)
  brush_ : CCSize;                              (* content size of brush.png *)
  brush_radius_ : R;
  points_being_drawn_ : list CCPoint;
  debug_enabled_ : bool;
  m_pChildren : list CCNode;
  box2d_world_ : list b2Body;
  box2d_density_ : R;
  box2d_restitution_ : R;
  box2d_friction_ : R;
  win_size : CCSize;                            (* [getWinSize()] *)
  next_node : nat                               (* next fresh node address *)
}.

Definition set_touch (l : PhysicsLayer) (id : Z) : PhysicsLayer :=
  mkLayer id (render_target_ l) (brush_ l) (brush_radius_ l)
    (points_being_drawn_ l) (debug_enabled_ l) (m_pChildren l)
    (box2d_world_ l) (box2d_density_ l) (box2d_restitution_ l)
    (box2d_friction_ l) (win_size l) (next_node l).

Definition set_render_target (l : PhysicsLayer) (rt : option CCRenderTexture)
  : PhysicsLayer :=
  mkLayer (current_touch_id_ l) rt (brush_ l) (brush_radius_ l)
    (points_being_drawn_ l) (debug_enabled_ l) (m_pChildren l)
    (box2d_world_ l) (box2d_density_ l) (box2d_restitution_ l)
    (box2d_friction_ l) (win_size l) (next_node l).

Definition set_points (l : PhysicsLayer) (pts : list CCPoint) : PhysicsLayer :=
  mkLayer (current_touch_id_ l) (render_target_ l) (brush_ l) (brush_radius_ l)
    pts (debug_enabled_ l) (m_pChildren l)
    (box2d_world_ l) (box2d_density_ l) (box2d_restitution_ l)
    (box2d_friction_ l) (win_size l) (next_node l).

Definition set_debug (l : PhysicsLayer) (d : bool) : PhysicsLayer :=
  mkLayer (current_touch_id_ l) (render_target_ l) (brush_ l) (brush_radius_ l)
    (points_being_drawn_ l) d (m_pChildren l)
    (box2d_world_ l) (box2d_density_ l) (box2d_restitution_ l)
    (box2d_friction_ l) (win_size l) (next_node l).

Definition set_children (l : PhysicsLayer) (cs : list CCNode) : PhysicsLayer :=
  mkLayer (current_touch_id_ l) (render_target_ l) (brush_ l) (brush_radius_ l)
    (points_being_drawn_ l) (debug_enabled_ l) cs
    (box2d_world_ l) (box2d_density_ l) (box2d_restitution_ l)
    (box2d_friction_ l) (win_size l) (next_node l).

Definition set_world (l : PhysicsLayer) (w : list b2Body) : PhysicsLayer :=
  mkLayer (current_touch_id_ l) (render_target_ l) (brush_ l) (brush_radius_ l)
    (points_being_drawn_ l) (debug_enabled_ l) (m_pChildren l)
    w (box2d_density_ l) (box2d_restitution_ l)
    (box2d_friction_ l) (win_size l) (next_node l).

(** [addChild]: the node is stored behind the children already there. *)
Definition addChild (l : PhysicsLayer) (n : CCNode) : PhysicsLayer :=
  set_children l (m_pChildren l ++ [n]).

(** A new node object takes the next fresh address. *)
Definition alloc_node (l : PhysicsLayer) : PhysicsLayer :=
  mkLayer (current_touch_id_ l) (render_target_ l) (brush_ l) (brush_radius_ l)
    (points_being_drawn_ l) (debug_enabled_ l) (m_pChildren l)
    (box2d_world_ l) (box2d_density_ l) (box2d_restitution_ l)
    (box2d_friction_ l) (win_size l) (S (next_node l)).

(** [removeChild(child, true)] for the node at address [id]. *)
Definition removeChild (l : PhysicsLayer) (id : nat) : PhysicsLayer :=
  set_children l (filter (fun n => negb (Nat.eqb (node_id n) id)) (m_pChildren l)).

(** The constructor and [init] (lines 24-53), for a brush image of size
    [brush_size] in a window of size [win]; the debug member is compiled
    in.  The static ground body that [InitPhysics] puts into the world has
    edge shapes only and takes no part in what follows; it is left out of
    [box2d_world_]. *)
Definition init (brush_size win : CCSize) : PhysicsLayer :=
  {| current_touch_id_ := (-1)%Z;
     render_target_ := None;
     brush_ := brush_size;
     brush_radius_ := MAX (height brush_size / 2) (width brush_size / 2);
     points_being_drawn_ := [];
     debug_enabled_ := false;
     m_pChildren := [];
     box2d_world_ := [];
     box2d_density_ := DEFAULT_DENSITY;
     box2d_restitution_ := DEFAULT_RESTITUTION;
     box2d_friction_ := DEFAULT_FRICTION;
     win_size := win;
     next_node := 0%nat |}.

(** [CreateRenderTarget] (lines 69-79).  [assert(!render_target_)]. *)
Definition CreateRenderTarget (l : PhysicsLayer) : option PhysicsLayer :=
  match render_target_ l with
  | Some _ => None
  | None =>
      let id := next_node l in
      let l := set_render_target (alloc_node l) (Some (mkRenderTexture id [])) in
      Some (addChild l (mkNode id true None))
  end.

(** ** ToggleDebug (lines 126-140) *)

Definition is_render_target (l : PhysicsLayer) (child : CCNode) : bool :=
  match render_target_ l with
  | Some rt => Nat.eqb (node_id child) (rt_node rt)
  | None => false
  end.

Definition ToggleDebug (l : PhysicsLayer) : PhysicsLayer :=
  let l := set_debug l (negb (debug_enabled_ l)) in
  set_children l
    (map (fun child =>
            if is_render_target l child then child
            else setVisible (negb (debug_enabled_ l)) child)
         (m_pChildren l)).

(** [UpdateWorld] (lines 142-144) hands the world to the Box2D solver,
    which is outside this file: [step] is whatever the solver does. *)
Definition UpdateWorld (step : list b2Body -> list b2Body) (l : PhysicsLayer)
  : PhysicsLayer :=
  set_world l (step (box2d_world_ l)).

(** ** Stroke capture (lines 146-212) *)

(** [brush_->setPosition(p); brush_->visit()] between [begin()] and
    [end()] of the render target. *)
Definition visit_brush (rt : CCRenderTexture) (p : CCPoint) : CCRenderTexture :=
  {| rt_node := rt_node rt; rt_stamps := rt_stamps rt ++ [p] |}.

Definition DrawPoint (l : PhysicsLayer) (location : CCPoint) : option PhysicsLayer :=
  match render_target_ l with
  | None => None
  | Some rt =>
      let l := set_render_target l (Some (visit_brush rt location)) in
      Some (set_points l (points_being_drawn_ l ++ [location]))
  end.

(** The brush position of iteration [i] (lines 180-184). *)
Definition line_position (start end_ : CCPoint) (distance : R) (i : nat) : CCPoint :=
  let difx := pt_x end_ - pt_x start in
  let dify := pt_y end_ - pt_y start in
  let delta := INR i / distance in
  ccp (pt_x start + difx * delta) (pt_y start + dify * delta).

(** The number of turns of [for (int i = 0; i < int(distance + 0.5); i++)]. *)
Definition line_count (distance : R) : nat :=
  Z.to_nat (float_to_int (distance + 5 / 10)).

Definition DrawLine (l : PhysicsLayer) (start end_ : CCPoint) : option PhysicsLayer :=
  let distance := ccpDistance start end_ in
  match render_target_ l with
  | None => None
  | Some rt =>
      let rt := fold_left
                  (fun rt i => visit_brush rt (line_position start end_ distance i))
                  (seq 0 (line_count distance)) rt in
      let l := set_render_target l (Some rt) in
      Some (set_points l (points_being_drawn_ l ++ [end_]))
  end.

Definition ccTouchBegan (l : PhysicsLayer) (touch : CCTouch)
  : option (bool * PhysicsLayer) :=
  if negb (Z.eqb (current_touch_id_ l) (-1)) then Some (false, l)
  else
    let l := set_touch l (getID touch) in
    match (match render_target_ l with
           | None => CreateRenderTarget l
           | Some _ => Some l
           end) with
    | None => None
    | Some l =>
        let l := set_points l [] in
        match DrawPoint l (getLocation touch) with
        | None => None
        | Some l => Some (true, l)
        end
    end.

(** [assert(touch->getID() == current_touch_id_)], then [DrawLine]. *)
Definition ccTouchMoved (l : PhysicsLayer) (touch : CCTouch) : option PhysicsLayer :=
  if Z.eqb (getID touch) (current_touch_id_ l)
  then DrawLine l (getPreviousLocation touch) (getLocation touch)
  else None.

(** ** Shape building (lines 322-407) *)

(** [atan2(y, x)] of [<math.h>]. *)
Definition atan2 (y x : R) : R :=
  if Rlt_dec 0 x then atan (y / x)
  else if Rlt_dec x 0 then
    (if Rle_dec 0 y then atan (y / x) + PI else atan (y / x) - PI)
  else if Rlt_dec 0 y then PI / 2
  else if Rlt_dec y 0 then - (PI / 2)
  else 0.

Definition AddShapeToBody (l : PhysicsLayer) (body : b2Body) (shape : b2Shape)
  : b2Body :=
  CreateFixture body
    {| m_shape := shape;
       m_density := box2d_density_ l;
       m_friction := box2d_friction_ l;
       m_restitution := box2d_restitution_ l |}.

Definition AddSphereToBody (l : PhysicsLayer) (body : b2Body) (location : CCPoint)
  : b2Body :=
  let m_radius := SCREEN_TO_WORLD (brush_radius_ l) in
  let m_p :=
    {| vx := SCREEN_TO_WORLD (pt_x location) - vx (GetPosition body);
       vy := SCREEN_TO_WORLD (pt_y location) - vy (GetPosition body) |} in
  AddShapeToBody l body (b2CircleShape m_p m_radius).

(** The [width] of line 401.  Which overload of [abs] the call resolves
    to is settled by headers outside this file; it is read as the absolute
    value of the [float] it is given, which makes the width
    [toSim(distance)] as the specification has it. *)
Definition line_width (start end_ : CCPoint) : R :=
  SCREEN_TO_WORLD (Rabs (ccpDistance start end_)).

(** [brush_->boundingBox().size.height]: the brush sprite is neither
    scaled nor rotated, its bounding box has its content size. *)
Definition line_height (l : PhysicsLayer) : R :=
  SCREEN_TO_WORLD (height (brush_ l)).

Definition AddLineToBody (l : PhysicsLayer) (body : b2Body) (start end_ : CCPoint)
  : b2Body :=
  let sx := pt_x start in
  let sy := pt_y start in
  let ex := pt_x end_ in
  let ey := pt_y end_ in
  let dist_x := sx - ex in
  let dist_y := sy - ey in
  let angle := atan2 dist_y dist_x in
  let posx := SCREEN_TO_WORLD ((sx + ex) / 2) - vx (GetPosition body) in
  let posy := SCREEN_TO_WORLD ((sy + ey) / 2) - vy (GetPosition body) in
  let width' := line_width start end_ in
  let height' := line_height l in
  AddShapeToBody l body
    (SetAsBox (width' / 2) (height' / 2) (mkVec2 posx posy) angle).

(** Iterators into [points_being_drawn_] are positions [0 .. size];
    [it - k] is undefined when it would lie before the start. *)
Definition iter_minus (it k : nat) : option nat :=
  if (k <=? it)%nat then Some (it - k)%nat else None.

(** The loop of lines 348-361, from iterator [iter] on.  It fails on
    reading past the end and on an iterator before the start.  Next to the
    body it returns, as a ghost, the positions [iter] at which the test of
    line 356 was evaluated, latest first. *)
Fixpoint body_loop (l : PhysicsLayer) (min_box_length : Z) (fuel iter : nat)
    (start_point : CCPoint) (body : b2Body) (tested : list nat)
  : option (b2Body * list nat) :=
  let points := points_being_drawn_ l in
  if Nat.eqb iter (length points) then Some (body, tested)
  else
    match fuel with
    | O => None
    | S fuel =>
        match nth_error points iter with
        | None => None
        | Some end_point =>
            let distance := ccpDistance start_point end_point in
            let add_line tested :=
              body_loop l min_box_length fuel (S iter) end_point
                (AddLineToBody l body start_point end_point) tested in
            if Rlt_dec distance (IZR min_box_length) then
              match iter_minus (length points) 1 with
              | None => None
              | Some last =>
                  if negb (Nat.eqb iter last)
                  then body_loop l min_box_length fuel (S iter) start_point body
                         (iter :: tested)
                  else add_line (iter :: tested)
              end
            else add_line tested
        end
    end.

(** [CreatePhysicsBody] up to the end of its loop: the body, and the ghost
    list of [body_loop].  [assert(points_being_drawn_.size())]. *)
Definition build_body (l : PhysicsLayer) : option (b2Body * list nat) :=
  match points_being_drawn_ l with
  | [] => None
  | front :: _ =>
      let start_point := front in
      let body :=
        CreateBody (mkVec2 (SCREEN_TO_WORLD (pt_x start_point))
                           (SCREEN_TO_WORLD (pt_y start_point))) in
      let min_box_length := float_to_int (brush_radius_ l) in
      let body := AddSphereToBody l body start_point in
      let body := AddSphereToBody l body (last (points_being_drawn_ l) front) in
      body_loop l min_box_length (length (points_being_drawn_ l)) 1
        start_point body []
  end.

(** The body joins the world; the stroke is cleared. *)
Definition CreatePhysicsBody (l : PhysicsLayer) : option (b2Body * PhysicsLayer) :=
  match build_body l with
  | None => None
  | Some (body, _) =>
      Some (body, set_points (set_world l (body :: box2d_world_ l)) [])
  end.

(** The loop again, by recursion on the points still to visit: [rest] is
    the part of the stroke from [iter] on.  [body_loop_walk] below shows
    that [body_loop] computes this. *)
Fixpoint walk (l : PhysicsLayer) (min_box_length : Z) (start_point : CCPoint)
    (rest : list CCPoint) (body : b2Body) : b2Body :=
  match rest with
  | [] => body
  | end_point :: rest' =>
      let distance := ccpDistance start_point end_point in
      if Rlt_dec distance (IZR min_box_length) then
        match rest' with
        | _ :: _ => walk l min_box_length start_point rest' body
        | [] => walk l min_box_length end_point rest'
                  (AddLineToBody l body start_point end_point)
        end
      else walk l min_box_length end_point rest'
             (AddLineToBody l body start_point end_point)
  end.

(** ** Sprite creation (lines 282-320) and the end of a gesture *)

(** The sprite for [body]; the node is not yet a child.
    [render_target_->newCCImage()] needs the render target. *)
Definition CreatePhysicsSprite (l : PhysicsLayer) (body : b2Body)
  : option CCPhysicsSprite :=
  match render_target_ l with
  | None => None
  | Some rt =>
      let tex := rt_stamps rt in
      let r0 := CalcBodyBounds (win_size l) body in
      let sprite_rect :=
        CCRectMake (pt_x (origin r0) - brush_radius_ l)
                   (pt_y (origin r0) - brush_radius_ l)
                   (width (size r0) + brush_radius_ l)
                   (height (size r0) + brush_radius_ l) in
      let s := win_size l in
      let body_pos := ccp (WORLD_TO_SCREEN (vx (GetPosition body)))
                          (WORLD_TO_SCREEN (vy (GetPosition body))) in
      let anchorX := pt_x body_pos - pt_x (origin sprite_rect) in
      let anchorY := pt_y body_pos + pt_y (origin sprite_rect)
                     + height (size sprite_rect) in
      let anchorY := anchorY - height s in
      Some {| sp_texture := tex;
              sp_rect := sprite_rect;
              sp_body := body;
              sp_anchor := ccp (anchorX / width (size sprite_rect))
                               (anchorY / height (size sprite_rect)) |}
  end.

Definition ccTouchEnded (l : PhysicsLayer) (touch : CCTouch) : option PhysicsLayer :=
  if negb (Z.eqb (getID touch) (current_touch_id_ l)) then None
  else
    match CreatePhysicsBody l with
    | None => None
    | Some (body, l) =>
        match CreatePhysicsSprite l body, render_target_ l with
        | Some sprite, Some rt =>
            let id := next_node l in
            let node := mkNode id true (Some sprite) in
            let node := if debug_enabled_ l then setVisible false node else node in
            let l := addChild (alloc_node l) node in
            let l := removeChild l (rt_node rt) in
            let l := set_render_target l None in
            Some (set_touch l (-1)%Z)
        | _, _ => None
        end
    end.

(** ** The distance the program computes *)

Section ComputedDistance.

(** [ccpDistance] above is the distance in exact arithmetic.  In the
    program a call of [ccpDistance] hands back a binary32 number, the
    rounded root of a rounded sum of rounded squares, which can lie on the
    other side of a threshold than the exact distance does.
    [distance_of a b] stands for the number the call returns for [a] and
    [b]; the definitions of this section are [DrawLine], [AddLineToBody]
    and [CreatePhysicsBody] with that number in the place of the exact
    distance, and they are [DrawLine], [AddLineToBody] and
    [CreatePhysicsBody] themselves when it is the exact distance. *)
Variable distance_of : CCPoint -> CCPoint -> R.

(** [DrawLine] (lines 170-190). *)
Definition DrawLine_by (l : PhysicsLayer) (start end_ : CCPoint)
  : option PhysicsLayer :=
  let distance := distance_of start end_ in
  match render_target_ l with
  | None => None
  | Some rt =>
      let rt := fold_left
                  (fun rt i => visit_brush rt (line_position start end_ distance i))
                  (seq 0 (line_count distance)) rt in
      let l := set_render_target l (Some rt) in
      Some (set_points l (points_being_drawn_ l ++ [end_]))
  end.

(** [AddLineToBody] (lines 386-407). *)
Definition AddLineToBody_by (l : PhysicsLayer) (body : b2Body)
    (start end_ : CCPoint) : b2Body :=
  let distance := distance_of start end_ in
  let sx := pt_x start in
  let sy := pt_y start in
  let ex := pt_x end_ in
  let ey := pt_y end_ in
  let dist_x := sx - ex in
  let dist_y := sy - ey in
  let angle := atan2 dist_y dist_x in
  let posx := SCREEN_TO_WORLD ((sx + ex) / 2) - vx (GetPosition body) in
  let posy := SCREEN_TO_WORLD ((sy + ey) / 2) - vy (GetPosition body) in
  let width' := SCREEN_TO_WORLD (Rabs distance) in
  let height' := line_height l in
  AddShapeToBody l body
    (SetAsBox (width' / 2) (height' / 2) (mkVec2 posx posy) angle).

(** The loop of lines 348-361, as [body_loop]. *)
Fixpoint body_loop_by (l : PhysicsLayer) (min_box_length : Z) (fuel iter : nat)
    (start_point : CCPoint) (body : b2Body) (tested : list nat)
  : option (b2Body * list nat) :=
  let points := points_being_drawn_ l in
  if Nat.eqb iter (length points) then Some (body, tested)
  else
    match fuel with
    | O => None
    | S fuel =>
        match nth_error points iter with
        | None => None
        | Some end_point =>
            let distance := distance_of start_point end_point in
            let add_line tested :=
              body_loop_by l min_box_length fuel (S iter) end_point
                (AddLineToBody_by l body start_point end_point) tested in
            if Rlt_dec distance (IZR min_box_length) then
              match iter_minus (length points) 1 with
              | None => None
              | Some last =>
                  if negb (Nat.eqb iter last)
                  then body_loop_by l min_box_length fuel (S iter) start_point body
                         (iter :: tested)
                  else add_line (iter :: tested)
              end
            else add_line tested
        end
    end.

(** [CreatePhysicsBody] (lines 322-365), as [build_body] and
    [CreatePhysicsBody]. *)
Definition build_body_by (l : PhysicsLayer) : option (b2Body * list nat) :=
  match points_being_drawn_ l with
  | [] => None
  | front :: _ =>
      let start_point := front in
      let body :=
        CreateBody (mkVec2 (SCREEN_TO_WORLD (pt_x start_point))
                           (SCREEN_TO_WORLD (pt_y start_point))) in
      let min_box_length := float_to_int (brush_radius_ l) in
      let body := AddSphereToBody l body start_point in
      let body := AddSphereToBody l body (last (points_being_drawn_ l) front) in
      body_loop_by l min_box_length (length (points_being_drawn_ l)) 1
        start_point body []
  end.

Definition CreatePhysicsBody_by (l : PhysicsLayer)
  : option (b2Body * PhysicsLayer) :=
  match build_body_by l with
  | None => None
  | Some (body, _) =>
      Some (body, set_points (set_world l (body :: box2d_world_ l)) [])
  end.

(** The loop by recursion on the points still to visit, as [walk]. *)
Fixpoint walk_by (l : PhysicsLayer) (min_box_length : Z) (start_point : CCPoint)
    (rest : list CCPoint) (body : b2Body) : b2Body :=
  match rest with
  | [] => body
  | end_point :: rest' =>
      let distance := distance_of start_point end_point in
      if Rlt_dec distance (IZR min_box_length) then
        match rest' with
        | _ :: _ => walk_by l min_box_length start_point rest' body
        | [] => walk_by l min_box_length end_point rest'
                  (AddLineToBody_by l body start_point end_point)
        end
      else walk_by l min_box_length end_point rest'
             (AddLineToBody_by l body start_point end_point)
  end.

End ComputedDistance.

(** ** Notions the properties are stated with *)

(** The stroke-capture state machine: the layer is capturing a gesture
    exactly when [current_touch_id_] holds a touch, that is, differs from
    the [-1] the constructor and [ccTouchEnded] store. *)
Definition Capturing (l : PhysicsLayer) : Prop := current_touch_id_ l <> (-1)%Z.
Definition Idle (l : PhysicsLayer) : Prop := current_touch_id_ l = (-1)%Z.

(** The brush stamps in the render target; none without a target. *)
Definition brush_stamps (l : PhysicsLayer) : list CCPoint :=
  match render_target_ l with
  | Some rt => rt_stamps rt
  | None => []
  end.

(** [p] lies on the straight segment from [a] to [b]. *)
Definition on_segment (a b p : CCPoint) : Prop :=
  exists t : R, 0 <= t <= 1 /\
    pt_x p = pt_x a + (pt_x b - pt_x a) * t /\
    pt_y p = pt_y a + (pt_y b - pt_y a) * t.

Definition is_circle (f : b2Fixture) : bool :=
  match m_shape f with b2CircleShape _ _ => true | b2PolygonShape _ => false end.
Definition is_polygon (f : b2Fixture) : bool := negb (is_circle f).

Definition circle_count (body : b2Body) : nat :=
  length (filter is_circle (m_fixtureList body)).
Definition box_count (body : b2Body) : nat :=
  length (filter is_polygon (m_fixtureList body)).

(** The width of a box polygon, measured on the polygon itself: the
    length of the edge from its first to its second vertex, the edge
    [SetAsBox] lays along the box's own x axis. *)
Definition box_width (m_vertices : list b2Vec2) : R :=
  match m_vertices with
  | v0 :: v1 :: _ =>
      sqrt ((vx v1 - vx v0) * (vx v1 - vx v0) + (vy v1 - vy v0) * (vy v1 - vy v0))
  | _ => 0
  end.

(** The candidate extents a fixture contributes to the bounds: centre
    minus and plus radius for a circle, each transformed vertex for a
    polygon. *)
Definition fixture_extents (xform : b2Transform) (f : b2Fixture) : list Extremes :=
  match m_shape f with
  | b2CircleShape m_p m_radius =>
      let center := b2Mul xform m_p in
      [ mkExtremes (vx center - m_radius) (vx center + m_radius)
                   (vy center - m_radius) (vy center + m_radius) ]
  | b2PolygonShape m_vertices =>
      map (fun v => let w := b2Mul xform v in mkExtremes (vx w) (vx w) (vy w) (vy w))
          m_vertices
  end.

Definition join_extremes (e c : Extremes) : Extremes :=
  mkExtremes (Rmin (minX e) (minX c)) (Rmax (maxX e) (maxX c))
             (Rmin (minY e) (minY c)) (Rmax (maxY e) (maxY c)).


(** The visibility discipline of the layer: every child other than the
    render target is shown exactly when debug drawing is off. *)
Definition visibility_follows_debug (l : PhysicsLayer) : Prop :=
  forall child, In child (m_pChildren l) ->
    is_render_target l child = false ->
    m_bVisible child = negb (debug_enabled_ l).

(** The states the layer reaches from [init] through its own entry
    points. *)
Inductive reachable (brush_size win : CCSize) : PhysicsLayer -> Prop :=
| reach_init : reachable brush_size win (init brush_size win)
| reach_began l touch b l' :
    reachable brush_size win l ->
    ccTouchBegan l touch = Some (b, l') -> reachable brush_size win l'
| reach_moved l touch l' :
    reachable brush_size win l ->
    ccTouchMoved l touch = Some l' -> reachable brush_size win l'
| reach_ended l touch l' :
    reachable brush_size win l ->
    ccTouchEnded l touch = Some l' -> reachable brush_size win l'
| reach_toggle l :
    reachable brush_size win l -> reachable brush_size win (ToggleDebug l)
| reach_update l step :
    reachable brush_size win l -> reachable brush_size win (UpdateWorld step l).


(** The body under construction when the loop starts: created at the
    first point, with the two circles. *)
Definition capped_body (l : PhysicsLayer) (front : CCPoint) (rest : list CCPoint)
  : b2Body :=
  AddSphereToBody l
    (AddSphereToBody l
       (CreateBody (mkVec2 (SCREEN_TO_WORLD (pt_x front))
                           (SCREEN_TO_WORLD (pt_y front)))) front)
    (last (front :: rest) front).

(** No point of [rest] is nearer than [m] to the point before it, [start]
    being the point before the first. *)
Fixpoint well_spaced (m : R) (start : CCPoint) (rest : list CCPoint) : Prop :=
  match rest with
  | [] => True
  | p :: rest' => ~ ccpDistance start p < m /\ well_spaced m p rest'
  end.

(** The circle fixture [AddSphereToBody] attaches for a point that is the
    body's own origin. *)
Definition cap_fixture (l : PhysicsLayer) : b2Fixture :=
  {| m_shape := b2CircleShape (mkVec2 0 0) (SCREEN_TO_WORLD (brush_radius_ l));
     m_density := box2d_density_ l;
     m_friction := box2d_friction_ l;
     m_restitution := box2d_restitution_ l |}.

(** Every polygon fixture in [fs] is at least [w] wide. *)
Definition boxes_at_least (w : R) (fs : list b2Fixture) : Prop :=
  forall f vs, In f fs -> m_shape f = b2PolygonShape vs -> w <= box_width vs.

(** [e'] reaches at least as far as [e] in all four directions. *)
Definition extends (e e' : Extremes) : Prop :=
  minX e' <= minX e /\ maxX e <= maxX e' /\
  minY e' <= minY e /\ maxY e <= maxY e'.

(** ** Sample data *)

(** A 21 x 21 brush in a 640 x 480 window: the brush radius is 10.5. *)
Definition sample_layer : PhysicsLayer :=
  init (CCSizeMake 21 21) (CCSizeMake 640 480).

(** Touch 0 at [to_], coming from [from]. *)
Definition sample_touch (from to_ : CCPoint) : CCTouch :=
  {| getID := 0; getLocation := to_; getPreviousLocation := from |}.

(** The layer after an entry point has run (the layer itself, had the
    entry point failed). *)
Definition after_began (l : PhysicsLayer) (touch : CCTouch) : PhysicsLayer :=
  match ccTouchBegan l touch with
  | Some (_, l') => l'
  | None => l
  end.

Definition after_moved (l : PhysicsLayer) (touch : CCTouch) : PhysicsLayer :=
  match ccTouchMoved l touch with
  | Some l' => l'
  | None => l
  end.

(** The layer in the middle of a gesture: the finger went down at the
    origin. *)
Definition sample_capturing : PhysicsLayer :=
  after_began sample_layer (sample_touch (ccp 0 0) (ccp 0 0)).

(** The finger has moved on along the x axis in five steps of 20 pixels. *)
Definition sample_straight : PhysicsLayer :=
  fold_left
    (fun l i => after_moved l (sample_touch (ccp (INR i * 20) 0) (ccp (INR (S i) * 20) 0)))
    (seq 0 5) sample_capturing.

(** The finger has moved first by 10.25 pixels, less than the brush
    radius, and then on to (100, 0). *)
Definition sample_near : PhysicsLayer :=
  after_moved
    (after_moved sample_capturing (sample_touch (ccp 0 0) (ccp (41 / 4) 0)))
    (sample_touch (ccp (41 / 4) 0) (ccp 100 0)).

(** Debug drawing off, and a child that its owner has hidden. *)
Definition sample_hidden_child : PhysicsLayer :=
  set_children sample_layer [ mkNode 7 false None ].


(** ** Further notions *)

Definition midpoint (a b : b2Vec2) : b2Vec2 :=
  mkVec2 ((vx a + vx b) / 2) ((vy a + vy b) / 2).

Definition edge_length (a b : b2Vec2) : R :=
  sqrt ((vx b - vx a) * (vx b - vx a) + (vy b - vy a) * (vy b - vy a)).

(** A stroke point in simulation units. *)
Definition toSim (p : CCPoint) : b2Vec2 :=
  mkVec2 (SCREEN_TO_WORLD (pt_x p)) (SCREEN_TO_WORLD (pt_y p)).

(** The values [start_point] takes in the loop of [CreatePhysicsBody]
    (line 360), in order: the stroke points at which a box ends.
    [distance_of] is the distance as the program computes it. *)
Fixpoint waypoints (distance_of : CCPoint -> CCPoint -> R) (min_box_length : Z)
    (start_point : CCPoint) (rest : list CCPoint) : list CCPoint :=
  match rest with
  | [] => []
  | end_point :: rest' =>
      if Rlt_dec (distance_of start_point end_point) (IZR min_box_length) then
        match rest' with
        | _ :: _ => waypoints distance_of min_box_length start_point rest'
        | [] => [end_point]
        end
      else end_point :: waypoints distance_of min_box_length end_point rest'
  end.

(** No point is nearer to the one before it than [m], by the computed
    distance. *)
Fixpoint well_spaced_by (distance_of : CCPoint -> CCPoint -> R) (m : R)
    (start : CCPoint) (rest : list CCPoint) : Prop :=
  match rest with
  | [] => True
  | p :: rest' =>
      ~ distance_of start p < m /\ well_spaced_by distance_of m p rest'
  end.

(** [xs] is [ys] with some elements left out. *)
Inductive subseq {A : Type} : list A -> list A -> Prop :=
| subseq_nil : subseq [] []
| subseq_skip x xs ys : subseq xs ys -> subseq xs (x :: ys)
| subseq_keep x xs ys : subseq xs ys -> subseq (x :: xs) (x :: ys).

(** One box per pair of neighbours in [start :: ps]. *)
Definition add_lines (distance_of : CCPoint -> CCPoint -> R) (l : PhysicsLayer)
    (start : CCPoint) (ps : list CCPoint) (body : b2Body) : b2Body :=
  fold_left (fun b se => AddLineToBody_by distance_of l b (fst se) (snd se))
            (combine (start :: ps) ps) body.

(** The fixture carries the material the layer gives to new fixtures. *)
Definition layer_material (l : PhysicsLayer) (f : b2Fixture) : Prop :=
  m_density f = box2d_density_ l /\
  m_friction f = box2d_friction_ l /\
  m_restitution f = box2d_restitution_ l.

(** A stroke that wanders about its first point within the brush radius
    and ends 3 pixels from where it began. *)
Definition sample_jitter : PhysicsLayer :=
  after_moved
    (after_moved sample_capturing (sample_touch (ccp 0 0) (ccp 5 0)))
    (sample_touch (ccp 5 0) (ccp 3 0)).

(** A body at (3, 2) with a box and a circle, and the same body with its
    fixtures in the other order. *)
Definition sample_box_fixture : b2Fixture :=
  mkFixture (SetAsBox 2 1 (mkVec2 1 0) 0)
            DEFAULT_DENSITY DEFAULT_FRICTION DEFAULT_RESTITUTION.

Definition sample_circle_fixture : b2Fixture :=
  mkFixture (b2CircleShape (mkVec2 0 0) 1)
            DEFAULT_DENSITY DEFAULT_FRICTION DEFAULT_RESTITUTION.

Definition sample_body_two : b2Body :=
  CreateFixture
    (CreateFixture (CreateBody (mkVec2 3 2)) sample_circle_fixture)
    sample_box_fixture.

Definition sample_body_two_swapped : b2Body :=
  CreateFixture
    (CreateFixture (CreateBody (mkVec2 3 2)) sample_box_fixture)
    sample_circle_fixture.

(** A run of [ccTouchMoved] events, stopping at the first that fails. *)
Fixpoint moves (l : PhysicsLayer) (touches : list CCTouch) : option PhysicsLayer :=
  match touches with
  | [] => Some l
  | touch :: touches' =>
      match ccTouchMoved l touch with
      | Some l' => moves l' touches'
      | None => None
      end
  end.

Definition after_ended (l : PhysicsLayer) (touch : CCTouch) : PhysicsLayer :=
  match ccTouchEnded l touch with
  | Some l' => l'
  | None => l
  end.

Definition is_sprite (child : CCNode) : bool :=
  match node_sprite child with Some _ => true | None => false end.

(** What holds of the stroke while a touch is being followed: the render
    target is there, and the stroke has its first point. *)
Definition gesture_invariant (l : PhysicsLayer) : Prop :=
  (current_touch_id_ l <> (-1)%Z -> render_target_ l <> None) /\
  (render_target_ l <> None -> points_being_drawn_ l <> []).

(** What holds of the children: no node is a child twice, every child
    was allocated before [next_node], the children that are not sprites
    are exactly the render target, and the render target, when there is
    one, is a child. *)
Definition scene_invariant (l : PhysicsLayer) : Prop :=
  NoDup (map node_id (m_pChildren l)) /\
  (forall child, In child (m_pChildren l) -> (node_id child < next_node l)%nat) /\
  (forall child, In child (m_pChildren l) ->
     is_sprite child = negb (is_render_target l child)) /\
  (forall rt, render_target_ l = Some rt ->
     In (rt_node rt) (map node_id (m_pChildren l))).

(** ** InitPhysics (lines 81-124) *)

(** [b2EdgeShape::Set(v1, v2)]: a line segment. *)
Record b2EdgeShape : Type := mkEdge { m_vertex1 : b2Vec2; m_vertex2 : b2Vec2 }.

(** The fixture list of the ground body: the four edges of lines 97-109,
    the one attached last in front.  [world_width] and [world_height] are
    [int]. *)
Definition InitPhysics_ground (win_size : CCSize) : list b2EdgeShape :=
  let world_width := IZR (float_to_int (SCREEN_TO_WORLD (width win_size))) in
  let world_height := IZR (float_to_int (SCREEN_TO_WORLD (height win_size))) in
  let bottom := mkEdge (mkVec2 0 0) (mkVec2 world_width 0) in
  let top := mkEdge (mkVec2 0 world_height) (mkVec2 world_width world_height) in
  let left := mkEdge (mkVec2 0 world_height) (mkVec2 0 0) in
  let right := mkEdge (mkVec2 world_width world_height) (mkVec2 world_width 0) in
  [ right; left; top; bottom ].

(** The end points of an edge lie in the rectangle from the origin to
    [(w, h)]. *)
Definition edge_within (w h : R) (e : b2EdgeShape) : Prop :=
  0 <= vx (m_vertex1 e) <= w /\ 0 <= vy (m_vertex1 e) <= h /\
  0 <= vx (m_vertex2 e) <= w /\ 0 <= vy (m_vertex2 e) <= h.

(** * Properties *)

(** ** Numbers and distances *)

(** Settles the comparisons of an [if] when the numbers decide them. *)
Ltac by_comparison :=
  repeat match goal with
         | |- context [Rlt_dec ?a ?b] =>
             destruct (Rlt_dec a b); try (exfalso; lra)
         | |- context [Rgt_dec ?a ?b] =>
             destruct (Rgt_dec a b); try (exfalso; lra)
         | |- context [Rle_dec ?a ?b] =>
             destruct (Rle_dec a b); try (exfalso; lra)
         end.

Lemma float_to_int_eq (x : R) (z : Z) :
  0 <= x -> IZR z <= x < IZR z + 1 -> float_to_int x = z.
Proof.
  intros Hx [Hlo Hhi]. unfold float_to_int.
  destruct (Rle_dec 0 x) as [_ | Hn]; [ | contradiction ].
  symmetry. apply Int_part_spec. lra.
Qed.




Lemma MAX_same (a : R) : MAX a a = a.
Proof. unfold MAX. by_comparison; reflexivity. Qed.


Lemma unit_fraction (n d : R) : 0 < d -> 0 <= n <= d -> 0 <= n / d <= 1.
Proof.
  intros Hd [Hn Hle]. unfold Rdiv.
  pose proof (Rinv_0_lt_compat d Hd) as Hi. split.
  - apply Rmult_le_pos; lra.
  - apply Rmult_le_reg_r with d; [ exact Hd | ].
    rewrite Rmult_assoc, Rinv_l by lra. lra.
Qed.

Lemma ccpDistance_nonneg (a b : CCPoint) : 0 <= ccpDistance a b.
Proof. unfold ccpDistance, ccpLength. apply sqrt_pos. Qed.

(** Along a horizontal line the distance is the difference of abscissas. *)
Lemma ccpDistance_horizontal (x1 x2 y : R) :
  x1 <= x2 -> ccpDistance (ccp x1 y) (ccp x2 y) = x2 - x1.
Proof.
  intros Hle.
  unfold ccpDistance, ccpLength, ccpLengthSQ, ccpDot, ccpSub. cbn [pt_x pt_y].
  apply sqrt_lem_1; [ nra | lra | ring ].
Qed.

(** ** Coordinate conversion *)

(** C9.  The conversion between pixels and simulation units is the plain
    scaling by the ratio 32: [SCREEN_TO_WORLD] divides by it,
    [WORLD_TO_SCREEN] multiplies by it, nothing is clamped or rounded, and
    converting to simulation units and back gives the value one started
    from.  On a binary number [m * 2^e] either conversion only moves the
    exponent by 5 and keeps the significand [m]: this is why the float
    operations of the source have nothing to round here as long as the
    exponent stays in range. *)
Theorem conversion_round_trip (x : R) :
  PTM_RATIO = 32 /\
  SCREEN_TO_WORLD x = x / 32 /\
  WORLD_TO_SCREEN x = x * 32 /\
  WORLD_TO_SCREEN (SCREEN_TO_WORLD x) = x /\
  (forall m e : Z,
      SCREEN_TO_WORLD (IZR m * powerRZ 2 e) = IZR m * powerRZ 2 (e - 5)) /\
  (forall m e : Z,
      WORLD_TO_SCREEN (IZR m * powerRZ 2 e) = IZR m * powerRZ 2 (e + 5)).
Proof.
  unfold WORLD_TO_SCREEN, SCREEN_TO_WORLD, PTM_RATIO.
  repeat split; try field.
  - intros m e. unfold Z.sub. rewrite powerRZ_add by lra.
    replace (powerRZ 2 (- (5))) with (/ 32) by (simpl; field). field.
  - intros m e. rewrite powerRZ_add by lra.
    replace (powerRZ 2 5) with 32 by (simpl; ring). ring.
Qed.

Lemma SCREEN_TO_WORLD_le (a b : R) :
  a <= b -> SCREEN_TO_WORLD a <= SCREEN_TO_WORLD b.
Proof. unfold SCREEN_TO_WORLD, PTM_RATIO. lra. Qed.

Lemma WORLD_TO_SCREEN_le (a b : R) :
  a <= b -> WORLD_TO_SCREEN a <= WORLD_TO_SCREEN b.
Proof. unfold WORLD_TO_SCREEN, PTM_RATIO. lra. Qed.

(** ** Stroke capture: refusing a second gesture *)

Lemma ccTouchEnded_idle (l l' : PhysicsLayer) (touch : CCTouch) :
  ccTouchEnded l touch = Some l' -> Idle l' /\ render_target_ l' = None.
Proof.
  unfold ccTouchEnded.
  destruct (negb _); [ discriminate | ].
  destruct (CreatePhysicsBody l) as [[body l1] | ]; [ | discriminate ].
  destruct (CreatePhysicsSprite l1 body); [ | discriminate ].
  destruct (render_target_ l1); [ | discriminate ].
  intros [= <-]. split; reflexivity.
Qed.

(** A first [begin] is accepted from the idle state the layer starts in
    and returns to. *)
Lemma ccTouchBegan_accepts_when_idle (l : PhysicsLayer) (touch : CCTouch) :
  Idle l -> render_target_ l = None ->
  exists l', ccTouchBegan l touch = Some (true, l') /\
             current_touch_id_ l' = getID touch /\
             points_being_drawn_ l' = [getLocation touch] /\
             brush_stamps l' = [getLocation touch].
Proof.
  unfold Idle, ccTouchBegan. intros -> Hrt. simpl.
  unfold CreateRenderTarget. simpl. rewrite Hrt. simpl.
  eexists. split; [ reflexivity | ]. repeat split.
Qed.

(** C7.  While a gesture is being captured a further [ccTouchBegan] is
    refused: it returns [false] and the layer, with its point sequence,
    render target and touch id, is exactly what it was.  This lasts until
    [ccTouchEnded], which leaves the layer idle. *)
Theorem second_begin_refused (l : PhysicsLayer) (touch : CCTouch) :
  Capturing l ->
  ccTouchBegan l touch = Some (false, l) /\
  (forall up l', ccTouchEnded l up = Some l' -> Idle l').
Proof.
  intros Hc. split.
  - unfold ccTouchBegan.
    destruct (Z.eqb_spec (current_touch_id_ l) (-1)) as [He | _].
    + contradiction.
    + reflexivity.
  - intros up l' He. apply (ccTouchEnded_idle _ _ _ He).
Qed.

Lemma second_begin_refused_witness :
  Capturing sample_capturing /\
  (ccTouchBegan sample_capturing (mkTouch 1 (ccp 5 5) (ccp 5 5))
     = Some (false, sample_capturing) /\
   (forall up l', ccTouchEnded sample_capturing up = Some l' -> Idle l')).
Proof.
  split.
  - unfold Capturing. cbn. lia.
  - apply (second_begin_refused sample_capturing (mkTouch 1 (ccp 5 5) (ccp 5 5))).
    unfold Capturing. cbn. lia.
Defined.

(** ** Stroke capture: drawing a line *)

Lemma fold_visit_brush_stamps (f : nat -> CCPoint) (ix : list nat)
    (rt : CCRenderTexture) :
  rt_stamps (fold_left (fun rt i => visit_brush rt (f i)) ix rt)
    = rt_stamps rt ++ map f ix.
Proof.
  revert rt. induction ix as [ | i ix IH]; intros rt; simpl.
  - rewrite app_nil_r. reflexivity.
  - rewrite IH. simpl. rewrite <- app_assoc. reflexivity.
Qed.

Lemma fold_visit_brush_node (f : nat -> CCPoint) (ix : list nat) (rt : CCRenderTexture) :
  rt_node (fold_left (fun rt i => visit_brush rt (f i)) ix rt) = rt_node rt.
Proof.
  revert rt. induction ix as [ | i ix IH]; intros rt; simpl.
  - reflexivity.
  - rewrite IH. reflexivity.
Qed.

(** The number of turns is the distance rounded to the nearest integer,
    halves upward. *)
Lemma line_count_rounds (d : R) :
  0 <= d -> d - 1 / 2 < INR (line_count d) <= d + 1 / 2.
Proof.
  intros Hd. unfold line_count, float_to_int.
  destruct (Rle_dec 0 (d + 5 / 10)) as [_ | Hn]; [ | lra ].
  destruct (base_Int_part (d + 5 / 10)) as [Hle Hgt].
  assert (Hz : (0 <= Int_part (d + 5 / 10))%Z).
  { assert (-1 < Int_part (d + 5 / 10))%Z by (apply lt_IZR; lra). lia. }
  rewrite INR_IZR_INZ, Z2Nat.id by exact Hz. lra.
Qed.

Lemma line_position_on_segment (start end_ : CCPoint) (d : R) (i : nat) :
  0 <= d ->
  (i < line_count d)%nat ->
  on_segment start end_ (line_position start end_ d i).
Proof.
  intros Hd Hi.
  destruct (line_count_rounds d Hd) as [_ Hup].
  assert (Hlt : INR i < d).
  { apply lt_INR in Hi. apply INR_lt in Hi as Hi'.
    assert (INR i + 1 <= INR (line_count d)).
    { rewrite <- S_INR. apply le_INR. lia. }
    lra. }
  assert (Hpos : 0 < d) by (pose proof (pos_INR i); lra).
  exists (INR i / d). split; [ | split; reflexivity ].
  split.
  - unfold Rdiv. apply Rmult_le_pos; [ apply pos_INR | ].
    left. apply Rinv_0_lt_compat. exact Hpos.
  - apply Rmult_le_reg_r with d; [ exact Hpos | ].
    unfold Rdiv. rewrite Rmult_assoc, Rinv_l by lra. lra.
Qed.

(** With the exact distance [DrawLine_by] is [DrawLine]. *)
Lemma DrawLine_by_exact (l : PhysicsLayer) (start end_ : CCPoint) :
  DrawLine_by ccpDistance l start end_ = DrawLine l start end_.
Proof. reflexivity. Qed.

Lemma DrawLine_by_effect (distance_of : CCPoint -> CCPoint -> R)
    (l : PhysicsLayer) (rt : CCRenderTexture) (start end_ : CCPoint) :
  render_target_ l = Some rt ->
  exists l',
    DrawLine_by distance_of l start end_ = Some l' /\
    brush_stamps l'
      = brush_stamps l
        ++ map (line_position start end_ (distance_of start end_))
               (seq 0 (line_count (distance_of start end_))) /\
    points_being_drawn_ l' = points_being_drawn_ l ++ [end_].
Proof.
  intros Hrt. unfold DrawLine_by. rewrite Hrt.
  eexists. split; [ reflexivity | ]. split; [ | reflexivity ].
  unfold brush_stamps. rewrite Hrt. cbn [render_target_ set_points set_render_target].
  apply fold_visit_brush_stamps.
Qed.

Lemma DrawLine_effect (l : PhysicsLayer) (rt : CCRenderTexture)
    (start end_ : CCPoint) :
  render_target_ l = Some rt ->
  exists l',
    DrawLine l start end_ = Some l' /\
    brush_stamps l'
      = brush_stamps l
        ++ map (line_position start end_ (ccpDistance start end_))
               (seq 0 (line_count (ccpDistance start end_))) /\
    points_being_drawn_ l' = points_being_drawn_ l ++ [end_].
Proof. apply (DrawLine_by_effect ccpDistance). Qed.

(** C3.  [DrawLine] from [start] to [end], with [d] the distance the
    program computes on line 173 (the number the call of [ccpDistance]
    returns, which is not negative), stamps the brush exactly
    [int(d + 0.5)] times, that is [d] rounded to the nearest integer, at
    the positions [start + (end - start) * (i / d)] for [i = 0, 1, ...],
    all of them on the segment from [start] to [end], and appends [end]
    to the point sequence.  Whatever number the call returns: the exact
    distance ([DrawLine_by_exact]) or a rounded one. *)
Theorem DrawLine_stamps (distance_of : CCPoint -> CCPoint -> R)
    (l : PhysicsLayer) (rt : CCRenderTexture) (start end_ : CCPoint) :
  render_target_ l = Some rt ->
  0 <= distance_of start end_ ->
  exists l',
    DrawLine_by distance_of l start end_ = Some l' /\
    brush_stamps l'
      = brush_stamps l
        ++ map (line_position start end_ (distance_of start end_))
               (seq 0 (line_count (distance_of start end_))) /\
    (length (brush_stamps l')
      = length (brush_stamps l) + line_count (distance_of start end_))%nat /\
    line_count (distance_of start end_)
      = Z.to_nat (float_to_int (distance_of start end_ + 5 / 10)) /\
    distance_of start end_ - 1 / 2
      < INR (line_count (distance_of start end_))
      <= distance_of start end_ + 1 / 2 /\
    (forall i, (i < line_count (distance_of start end_))%nat ->
       on_segment start end_
         (line_position start end_ (distance_of start end_) i)) /\
    points_being_drawn_ l' = points_being_drawn_ l ++ [end_].
Proof.
  intros Hrt Hd.
  destruct (DrawLine_by_effect distance_of l rt start end_ Hrt) as [l' [E [Hs Hp]]].
  exists l'. split; [ exact E | ]. split; [ exact Hs | ]. split.
  { rewrite Hs, length_app, length_map, length_seq. reflexivity. }
  split; [ reflexivity | ]. split.
  { apply line_count_rounds. exact Hd. }
  split; [ | exact Hp ].
  intros i Hi. apply line_position_on_segment; assumption.
Qed.

Lemma DrawLine_stamps_witness :
  render_target_ sample_capturing = Some (mkRenderTexture 0 [ccp 0 0]) /\
  0 <= ccpDistance (ccp 0 0) (ccp 3 4) /\
  exists l',
    DrawLine_by ccpDistance sample_capturing (ccp 0 0) (ccp 3 4) = Some l' /\
    brush_stamps l'
      = brush_stamps sample_capturing
        ++ map (line_position (ccp 0 0) (ccp 3 4)
                  (ccpDistance (ccp 0 0) (ccp 3 4)))
               (seq 0 (line_count (ccpDistance (ccp 0 0) (ccp 3 4)))) /\
    (length (brush_stamps l')
      = length (brush_stamps sample_capturing)
        + line_count (ccpDistance (ccp 0 0) (ccp 3 4)))%nat /\
    line_count (ccpDistance (ccp 0 0) (ccp 3 4))
      = Z.to_nat (float_to_int (ccpDistance (ccp 0 0) (ccp 3 4) + 5 / 10)) /\
    ccpDistance (ccp 0 0) (ccp 3 4) - 1 / 2
      < INR (line_count (ccpDistance (ccp 0 0) (ccp 3 4)))
      <= ccpDistance (ccp 0 0) (ccp 3 4) + 1 / 2 /\
    (forall i, (i < line_count (ccpDistance (ccp 0 0) (ccp 3 4)))%nat ->
       on_segment (ccp 0 0) (ccp 3 4)
         (line_position (ccp 0 0) (ccp 3 4)
            (ccpDistance (ccp 0 0) (ccp 3 4)) i)) /\
    points_being_drawn_ l' = points_being_drawn_ sample_capturing ++ [ccp 3 4].
Proof.
  split; [ reflexivity | ].
  split; [ apply ccpDistance_nonneg | ].
  apply (DrawLine_stamps ccpDistance sample_capturing (mkRenderTexture 0 [ccp 0 0])
           (ccp 0 0) (ccp 3 4) eq_refl (ccpDistance_nonneg (ccp 0 0) (ccp 3 4))).
Defined.

(** C3 as stated, with [round(d) + 1] stamps, fails: the line from
    (0,0) to (3,4) is 5 long and gets 5 stamps, not 6. *)
Lemma DrawLine_five_stamps_for_distance_five :
  ccpDistance (ccp 0 0) (ccp 3 4) = 5 /\
  exists l',
    DrawLine sample_capturing (ccp 0 0) (ccp 3 4) = Some l' /\
    (length (brush_stamps l') = length (brush_stamps sample_capturing) + 5)%nat /\
    (length (brush_stamps l') <> length (brush_stamps sample_capturing) + (5 + 1))%nat.
Proof.
  assert (D : ccpDistance (ccp 0 0) (ccp 3 4) = 5).
  { unfold ccpDistance, ccpLength, ccpLengthSQ, ccpDot, ccpSub. cbn [pt_x pt_y].
    apply sqrt_lem_1; lra. }
  assert (N : line_count 5 = 5%nat).
  { unfold line_count. rewrite (float_to_int_eq (5 + 5 / 10) 5); [ reflexivity | lra | lra ]. }
  split; [ exact D | ].
  destruct (DrawLine_effect sample_capturing (mkRenderTexture 0 [ccp 0 0])
              (ccp 0 0) (ccp 3 4) eq_refl) as [l' [E [Hs _]]].
  exists l'. split; [ exact E | ].
  rewrite Hs, length_app, length_map, length_seq, D, N. split; lia.
Qed.

(** ** Debug toggle *)

Lemma ToggleDebug_debug (l : PhysicsLayer) :
  debug_enabled_ (ToggleDebug l) = negb (debug_enabled_ l).
Proof. reflexivity. Qed.

Lemma ToggleDebug_render_target (l : PhysicsLayer) :
  render_target_ (ToggleDebug l) = render_target_ l.
Proof. reflexivity. Qed.

Lemma is_render_target_setVisible (l : PhysicsLayer) (v : bool) (child : CCNode) :
  is_render_target l (setVisible v child) = is_render_target l child.
Proof. reflexivity. Qed.

(** One toggle establishes the visibility discipline, whatever the
    visibilities were before. *)
Lemma ToggleDebug_establishes (l : PhysicsLayer) :
  visibility_follows_debug (ToggleDebug l).
Proof.
  intros child Hin Hrt. unfold ToggleDebug in Hin. simpl in Hin.
  apply in_map_iff in Hin. destruct Hin as [c [Hc Hin]].
  unfold is_render_target in *. simpl in *.
  destruct (render_target_ l) as [rt | ].
  - destruct (Nat.eqb (node_id c) (rt_node rt)) eqn:E.
    + subst child. rewrite E in Hrt. discriminate.
    + subst child. reflexivity.
  - subst child. reflexivity.
Qed.

(** The discipline is an invariant of the layer: it holds at [init] and
    every entry point keeps it. *)

Lemma DrawPoint_keeps_discipline (l l' : PhysicsLayer) (p : CCPoint) :
  DrawPoint l p = Some l' ->
  visibility_follows_debug l -> visibility_follows_debug l'.
Proof.
  unfold DrawPoint. destruct (render_target_ l) as [rt | ] eqn:Hrt; [ | discriminate ].
  intros [= <-] Hinv child Hin Hc. apply (Hinv child Hin).
  unfold is_render_target in *. simpl in Hc. rewrite Hrt. exact Hc.
Qed.

Lemma DrawLine_keeps_discipline (l l' : PhysicsLayer) (a b : CCPoint) :
  DrawLine l a b = Some l' ->
  visibility_follows_debug l -> visibility_follows_debug l'.
Proof.
  unfold DrawLine. destruct (render_target_ l) as [rt | ] eqn:Hrt; [ | discriminate ].
  intros [= <-] Hinv child Hin Hc. apply (Hinv child Hin).
  unfold is_render_target in *. simpl in Hc. rewrite Hrt.
  rewrite fold_visit_brush_node in Hc. exact Hc.
Qed.

Lemma ccTouchBegan_keeps_discipline (l l' : PhysicsLayer) (touch : CCTouch) (b : bool) :
  ccTouchBegan l touch = Some (b, l') ->
  visibility_follows_debug l -> visibility_follows_debug l'.
Proof.
  unfold ccTouchBegan. destruct (negb _).
  - intros [= _ <-]. auto.
  - simpl. destruct (render_target_ l) as [rt | ] eqn:Hrt.
    + unfold DrawPoint. simpl. rewrite Hrt. intros [= _ <-] Hinv child Hin Hc.
      apply (Hinv child Hin). unfold is_render_target in *. simpl in Hc.
      rewrite Hrt. exact Hc.
    + unfold CreateRenderTarget. simpl. rewrite Hrt. unfold DrawPoint. simpl.
      intros [= _ <-] Hinv child Hin Hc. simpl in Hin.
      unfold is_render_target in Hc. simpl in Hc.
      apply in_app_or in Hin. destruct Hin as [Hin | [<- | []]].
      * apply (Hinv child Hin). unfold is_render_target. rewrite Hrt. reflexivity.
      * simpl in Hc. rewrite Nat.eqb_refl in Hc. discriminate.
Qed.

Lemma CreatePhysicsBody_keeps (l l' : PhysicsLayer) (body : b2Body) :
  CreatePhysicsBody l = Some (body, l') ->
  l' = set_points (set_world l (body :: box2d_world_ l)) [].
Proof.
  unfold CreatePhysicsBody. destruct (build_body l) as [[b t] | ]; [ | discriminate ].
  intros [= <- <-]. reflexivity.
Qed.

Lemma ccTouchEnded_keeps_discipline (l l' : PhysicsLayer) (touch : CCTouch) :
  ccTouchEnded l touch = Some l' ->
  visibility_follows_debug l -> visibility_follows_debug l'.
Proof.
  unfold ccTouchEnded. destruct (negb _); [ discriminate | ].
  destruct (CreatePhysicsBody l) as [[body l1] | ] eqn:Hb; [ | discriminate ].
  apply CreatePhysicsBody_keeps in Hb. subst l1.
  destruct (CreatePhysicsSprite _ body) as [sprite | ]; [ | discriminate ].
  simpl. destruct (render_target_ l) as [rt | ] eqn:Hrt; [ | discriminate ].
  intros [= <-] Hinv child Hin _. simpl in Hin.
  apply filter_In in Hin. destruct Hin as [Hin Hid].
  apply in_app_or in Hin. destruct Hin as [Hin | [<- | []]].
  - simpl. apply (Hinv child Hin). unfold is_render_target. rewrite Hrt.
    apply negb_true_iff in Hid. exact Hid.
  - simpl. destruct (debug_enabled_ l); reflexivity.
Qed.

Lemma reachable_visibility (brush_size win : CCSize) (l : PhysicsLayer) :
  reachable brush_size win l -> visibility_follows_debug l.
Proof.
  induction 1 as [ | l touch b l' _ IH Hs | l touch l' _ IH Hs
                   | l touch l' _ IH Hs | l _ IH | l step _ IH ].
  - intros child [].
  - exact (ccTouchBegan_keeps_discipline _ _ _ _ Hs IH).
  - unfold ccTouchMoved in Hs. destruct (Z.eqb _ _); [ | discriminate ].
    exact (DrawLine_keeps_discipline _ _ _ _ Hs IH).
  - exact (ccTouchEnded_keeps_discipline _ _ _ Hs IH).
  - apply ToggleDebug_establishes.
  - exact IH.
Qed.

(** The brush radius of every reachable layer is the one [init] computed. *)
Lemma reachable_brush (brush_size win : CCSize) (l : PhysicsLayer) :
  reachable brush_size win l ->
  brush_radius_ l = MAX (height brush_size / 2) (width brush_size / 2) /\
  brush_ l = brush_size /\ win_size l = win.
Proof.
  induction 1 as [ | l touch b l' _ IH Hs | l touch l' _ IH Hs
                   | l touch l' _ IH Hs | l _ IH | l step _ IH ].
  - repeat split.
  - unfold ccTouchBegan in Hs. destruct (negb _).
    + injection Hs as _ <-. exact IH.
    + simpl in Hs. unfold CreateRenderTarget, DrawPoint in Hs. simpl in Hs.
      destruct (render_target_ l) eqn:Hrt; simpl in Hs; rewrite ?Hrt in Hs;
        simpl in Hs; injection Hs as _ <-; exact IH.
  - unfold ccTouchMoved in Hs. destruct (Z.eqb _ _); [ | discriminate ].
    unfold DrawLine in Hs. destruct (render_target_ l); [ | discriminate ].
    injection Hs as <-. exact IH.
  - unfold ccTouchEnded in Hs. destruct (negb _); [ discriminate | ].
    destruct (CreatePhysicsBody l) as [[body l1] | ] eqn:Hb; [ | discriminate ].
    apply CreatePhysicsBody_keeps in Hb. subst l1.
    destruct (CreatePhysicsSprite _ body); [ | discriminate ].
    simpl in Hs. destruct (render_target_ l); [ | discriminate ].
    injection Hs as <-. exact IH.
  - exact IH.
  - exact IH.
Qed.

(** A brush image of positive size gives a positive brush radius, in
    every state the layer reaches. *)
Lemma reachable_brush_positive (brush_size win : CCSize) (l : PhysicsLayer) :
  reachable brush_size win l ->
  0 < width brush_size \/ 0 < height brush_size ->
  0 < brush_radius_ l.
Proof.
  intros R Hpos. destruct (reachable_brush _ _ _ R) as [-> _].
  unfold MAX. by_comparison; lra.
Qed.

(** The sample layers are states the layer reaches. *)

Lemma sample_capturing_reachable :
  reachable (CCSizeMake 21 21) (CCSizeMake 640 480) sample_capturing.
Proof.
  apply (reach_began _ _ sample_layer (sample_touch (ccp 0 0) (ccp 0 0)) true);
    [ apply reach_init | reflexivity ].
Qed.

Lemma after_moved_reachable (brush_size win : CCSize) (l : PhysicsLayer)
    (from to_ : CCPoint) :
  reachable brush_size win l ->
  render_target_ l <> None ->
  current_touch_id_ l = 0%Z ->
  reachable brush_size win (after_moved l (sample_touch from to_)) /\
  render_target_ (after_moved l (sample_touch from to_)) <> None /\
  current_touch_id_ (after_moved l (sample_touch from to_)) = 0%Z.
Proof.
  intros R Hrt Hid.
  destruct (render_target_ l) as [rt | ] eqn:E; [ | contradiction ].
  assert (Hm : ccTouchMoved l (sample_touch from to_)
               = Some (after_moved l (sample_touch from to_))).
  { unfold after_moved, ccTouchMoved, DrawLine. rewrite Hid, E. reflexivity. }
  split; [ exact (reach_moved _ _ _ _ _ R Hm) | ].
  unfold after_moved, ccTouchMoved, DrawLine. rewrite Hid, E. cbn.
  split; [ discriminate | exact Hid ].
Qed.

Lemma sample_near_reachable :
  reachable (CCSizeMake 21 21) (CCSizeMake 640 480) sample_near.
Proof.
  unfold sample_near.
  apply after_moved_reachable; try apply after_moved_reachable;
    try apply sample_capturing_reachable; try reflexivity; cbn; discriminate.
Qed.

Lemma sample_straight_reachable :
  reachable (CCSizeMake 21 21) (CCSizeMake 640 480) sample_straight.
Proof.
  unfold sample_straight. cbn [seq fold_left].
  repeat (apply after_moved_reachable); try apply sample_capturing_reachable.
  all: try reflexivity.
  all: cbn; discriminate.
Qed.


Lemma sample_radius (l : PhysicsLayer) :
  reachable (CCSizeMake 21 21) (CCSizeMake 640 480) l -> brush_radius_ l = 21 / 2.
Proof.
  intros R. destruct (reachable_brush _ _ _ R) as [-> _].
  cbn [height width]. apply MAX_same.
Qed.

(** C10.  Applying [ToggleDebug] twice gives back the layer, debug flag
    and every child's visibility included, provided the layer keeps the
    visibility discipline: each child other than the render target is
    shown exactly when debug drawing is off.  Every layer reached from
    [init] through the entry points keeps it.  In any layer whatever, one
    [ToggleDebug] leaves the render-target child in the children array as
    it was. *)
Theorem ToggleDebug_involution (l : PhysicsLayer) :
  (visibility_follows_debug l -> ToggleDebug (ToggleDebug l) = l) /\
  (forall brush_size win,
      reachable brush_size win l -> visibility_follows_debug l) /\
  (forall i child,
      nth_error (m_pChildren l) i = Some child ->
      is_render_target l child = true ->
      nth_error (m_pChildren (ToggleDebug l)) i = Some child).
Proof.
  split; [ | split ].
  - intros Hinv.
    destruct l as [id rt br rad pts d cs w de re fr ws nx].
    unfold ToggleDebug, set_children, set_debug. simpl.
    rewrite negb_involutive. f_equal.
    rewrite map_map. rewrite <- (map_id cs) at 2.
    apply map_ext_in. intros c Hc.
    specialize (Hinv c Hc). unfold is_render_target in *. simpl in *.
    destruct rt as [rt | ].
    + destruct (Nat.eqb (node_id c) (rt_node rt)) eqn:E.
      * rewrite E. reflexivity.
      * simpl. rewrite E. specialize (Hinv eq_refl).
        destruct c as [n v s]. simpl in *. subst v.
        unfold setVisible. simpl. reflexivity.
    + specialize (Hinv eq_refl).
      destruct c as [n v s]. simpl in *. subst v.
      unfold setVisible. simpl. reflexivity.
  - intros brush_size win. apply reachable_visibility.
  - intros i child Hn Hrt. unfold ToggleDebug. simpl.
    rewrite nth_error_map, Hn. simpl.
    unfold is_render_target in *. simpl.
    destruct (render_target_ l); [ | discriminate ].
    rewrite Hrt. reflexivity.
Qed.

Lemma ToggleDebug_involution_witness :
  visibility_follows_debug sample_capturing /\
  ToggleDebug (ToggleDebug sample_capturing) = sample_capturing.
Proof.
  assert (H : visibility_follows_debug sample_capturing).
  { intros child Hin Hrt. cbn in Hin. destruct Hin as [<- | []].
    cbn in Hrt. discriminate. }
  split; [ exact H | apply (proj1 (ToggleDebug_involution sample_capturing) H) ].
Defined.

(** C10 as stated, for every layer state, fails: with debug drawing off
    and a child hidden by its owner, two toggles leave the child shown. *)
Lemma ToggleDebug_twice_shows_hidden_child :
  map m_bVisible (m_pChildren sample_hidden_child) = [false] /\
  debug_enabled_ (ToggleDebug (ToggleDebug sample_hidden_child))
    = debug_enabled_ sample_hidden_child /\
  map m_bVisible (m_pChildren (ToggleDebug (ToggleDebug sample_hidden_child)))
    = [true] /\
  ToggleDebug (ToggleDebug sample_hidden_child) <> sample_hidden_child.
Proof.
  repeat split.
  intros H. apply (f_equal (fun l => map m_bVisible (m_pChildren l))) in H.
  cbn in H. discriminate.
Qed.

(** ** Shape building: the loop *)

Lemma skipn_nth_error {A : Type} (xs : list A) (i : nat) (x : A) :
  nth_error xs i = Some x -> skipn i xs = x :: skipn (S i) xs.
Proof.
  revert i. induction xs as [ | y ys IH]; intros [ | i] H; simpl in *;
    try discriminate.
  - injection H as ->. reflexivity.
  - apply IH. exact H.
Qed.

Lemma skipn_nil_iff {A : Type} (xs : list A) (i : nat) :
  skipn i xs = [] <-> (length xs <= i)%nat.
Proof.
  split.
  - intros H. pose proof (length_skipn i xs) as E. rewrite H in E. simpl in E. lia.
  - apply skipn_all2.
Qed.

(** The polygon [SetAsBox] builds measures [2 * |hx|] along its own
    x axis, whatever the angle. *)
Lemma box_width_SetAsBox (hx hy : R) (center : b2Vec2) (angle : R)
    (vs : list b2Vec2) :
  SetAsBox hx hy center angle = b2PolygonShape vs ->
  box_width vs = 2 * Rabs hx.
Proof.
  unfold SetAsBox. intros [= <-]. cbn [map box_width].
  unfold b2Mul, b2Rot_Set. cbn [vx vy xf_p xf_q rot_s rot_c].
  match goal with
  | |- sqrt ?e = _ =>
      replace e with (Rsqr (2 * hx) * (Rsqr (sin angle) + Rsqr (cos angle)))
        by (unfold Rsqr; ring)
  end.
  rewrite sin2_cos2, Rmult_1_r, sqrt_Rsqr_abs, Rabs_mult.
  rewrite (Rabs_pos_eq 2) by lra. reflexivity.
Qed.

Section Loop.

Variable l : PhysicsLayer.

Lemma AddLineToBody_fixtures (body : b2Body) (a b : CCPoint) :
  exists f vs,
    m_fixtureList (AddLineToBody l body a b) = f :: m_fixtureList body /\
    m_shape f = b2PolygonShape vs /\
    box_width vs = SCREEN_TO_WORLD (ccpDistance a b) /\
    m_xf (AddLineToBody l body a b) = m_xf body.
Proof.
  unfold AddLineToBody, AddShapeToBody, CreateFixture.
  cbn [m_fixtureList m_xf].
  match goal with
  | |- context [SetAsBox ?hx ?hy ?c ?ang] =>
      destruct (SetAsBox hx hy c ang) as [ | vs] eqn:E;
        [ discriminate E | pose proof (box_width_SetAsBox hx hy c ang vs E) as W ]
  end.
  eexists. exists vs. split; [ reflexivity | ]. split; [ reflexivity | ].
  split; [ | reflexivity ].
  rewrite W. unfold line_width, SCREEN_TO_WORLD, PTM_RATIO.
  rewrite (Rabs_pos_eq (ccpDistance a b)) by apply ccpDistance_nonneg.
  rewrite Rabs_pos_eq.
  - field.
  - pose proof (ccpDistance_nonneg a b). lra.
Qed.

Lemma AddLineToBody_counts (body : b2Body) (a b : CCPoint) :
  box_count (AddLineToBody l body a b) = S (box_count body) /\
  circle_count (AddLineToBody l body a b) = circle_count body.
Proof. split; reflexivity. Qed.

(** [min_box_length], the threshold of the loop. *)
Variable m : Z.

(** The three ways the loop body can go. *)

Lemma walk_far (start_point p : CCPoint) (rest : list CCPoint) (body : b2Body) :
  ~ ccpDistance start_point p < IZR m ->
  walk l m start_point (p :: rest) body
    = walk l m p rest (AddLineToBody l body start_point p).
Proof.
  intros H. cbn [walk]. by_comparison. reflexivity.
Qed.

Lemma walk_final (start_point p : CCPoint) (body : b2Body) :
  walk l m start_point [p] body = AddLineToBody l body start_point p.
Proof. cbn [walk]. by_comparison; reflexivity. Qed.

Lemma walk_skip (start_point p : CCPoint) (rest : list CCPoint) (body : b2Body) :
  ccpDistance start_point p < IZR m -> rest <> [] ->
  walk l m start_point (p :: rest) body = walk l m start_point rest body.
Proof.
  intros H Hne. cbn [walk]. by_comparison.
  destruct rest; [ contradiction | reflexivity ].
Qed.

(** The loop only adds polygon fixtures, in front of those the body has,
    and leaves the body where it is. *)
Lemma walk_adds_polygons (rest : list CCPoint) :
  forall (start_point : CCPoint) (body : b2Body),
    m_xf (walk l m start_point rest body) = m_xf body /\
    exists added,
      m_fixtureList (walk l m start_point rest body)
        = added ++ m_fixtureList body /\
      Forall (fun f => is_polygon f = true) added /\
      (length added <= length rest)%nat.
Proof.
  induction rest as [ | p rest' IH]; intros start_point body.
  - simpl. split; [ reflexivity | ]. exists []. repeat split; auto.
  - assert (Hadd :
      m_xf (walk l m p rest' (AddLineToBody l body start_point p)) = m_xf body /\
      exists added,
        m_fixtureList (walk l m p rest' (AddLineToBody l body start_point p))
          = added ++ m_fixtureList body /\
        Forall (fun f => is_polygon f = true) added /\
        (length added <= length (p :: rest'))%nat).
    { destruct (IH p (AddLineToBody l body start_point p)) as [Hx [added [E [F L]]]].
      destruct (AddLineToBody_fixtures body start_point p)
        as [f [vs [Ef [Sf [_ Xf]]]]].
      split; [ congruence | ].
      exists (added ++ [f]). rewrite E, Ef, <- app_assoc. simpl.
      repeat split.
      - apply Forall_app. split; [ exact F | ].
        constructor; [ | constructor ].
        unfold is_polygon, is_circle. rewrite Sf. reflexivity.
      - rewrite length_app. simpl. lia. }
    destruct (Rlt_dec (ccpDistance start_point p) (IZR m)) as [Hd | Hd].
    + destruct rest' as [ | q rest''].
      * rewrite walk_final. exact Hadd.
      * rewrite walk_skip by (auto; discriminate).
        destruct (IH start_point body) as [Hx [added [E [F L]]]].
        split; [ exact Hx | ].
        exists added. repeat split; auto. simpl in *. lia.
    + rewrite walk_far by exact Hd. exact Hadd.
Qed.

(** On a stroke without near points every point gets its box. *)
Lemma walk_well_spaced (rest : list CCPoint) :
  forall (start_point : CCPoint) (body : b2Body),
    well_spaced (IZR m) start_point rest ->
    box_count (walk l m start_point rest body)
      = (length rest + box_count body)%nat /\
    circle_count (walk l m start_point rest body) = circle_count body.
Proof.
  induction rest as [ | p rest' IH]; intros start_point body Hs.
  - split; reflexivity.
  - destruct Hs as [Hd Hs]. rewrite (walk_far _ _ _ _ Hd).
    destruct (IH p (AddLineToBody l body start_point p) Hs) as [Hb Hc].
    destruct (AddLineToBody_counts body start_point p) as [Hb' Hc'].
    rewrite Hb, Hc, Hb', Hc'. simpl. split; [ lia | reflexivity ].
Qed.

(** After the loop all boxes but the one added last, the one that ends
    at the final point, are as wide as the threshold. *)
Lemma walk_widths (rest : list CCPoint) :
  forall (start_point : CCPoint) (body : b2Body),
    boxes_at_least (SCREEN_TO_WORLD (IZR m)) (m_fixtureList body) ->
    rest <> [] ->
    boxes_at_least (SCREEN_TO_WORLD (IZR m))
      (tl (m_fixtureList (walk l m start_point rest body))).
Proof.
  induction rest as [ | p rest' IH]; intros start_point body Hb Hne;
    [ contradiction | ].
  destruct rest' as [ | q rest''].
  - rewrite walk_final.
    destruct (AddLineToBody_fixtures body start_point p) as [f [vs [E _]]].
    rewrite E. exact Hb.
  - destruct (Rlt_dec (ccpDistance start_point p) (IZR m)) as [Hd | Hd].
    + rewrite walk_skip by (auto; discriminate).
      apply IH; [ exact Hb | discriminate ].
    + rewrite walk_far by exact Hd.
      apply IH; [ | discriminate ].
      destruct (AddLineToBody_fixtures body start_point p)
        as [f [vs [E [S [W _]]]]].
      rewrite E. intros f' vs' [<- | Hin] Hs.
      * rewrite S in Hs. injection Hs as <-. rewrite W.
        apply SCREEN_TO_WORLD_le. lra.
      * exact (Hb f' vs' Hin Hs).
Qed.

(** The index loop computes [walk] on the points from [iter] on, never
    fails when given as many turns as there are points left, and
    evaluates the test of line 356 only at positions inside the stroke. *)
Lemma body_loop_walk (fuel : nat) :
  forall (iter : nat) (start_point : CCPoint) (body : b2Body) (tested : list nat),
    (iter <= length (points_being_drawn_ l))%nat ->
    (length (points_being_drawn_ l) - iter <= fuel)%nat ->
    exists new,
      body_loop l m fuel iter start_point body tested
        = Some (walk l m start_point (skipn iter (points_being_drawn_ l)) body,
                new ++ tested) /\
      Forall (fun i => (iter <= i < length (points_being_drawn_ l))%nat) new.
Proof.
  induction fuel as [ | fuel IH]; intros iter start_point body tested Hle Hfuel.
  - assert (iter = length (points_being_drawn_ l)) as -> by lia.
    exists []. split; [ | constructor ].
    simpl. rewrite Nat.eqb_refl. rewrite skipn_all. reflexivity.
  - simpl. destruct (Nat.eqb_spec iter (length (points_being_drawn_ l))) as [-> | Hne].
    + exists []. split; [ | constructor ]. rewrite skipn_all. reflexivity.
    + assert (Hlt : (iter < length (points_being_drawn_ l))%nat) by lia.
      destruct (nth_error (points_being_drawn_ l) iter) as [end_point | ] eqn:Hn.
      2:{ apply nth_error_None in Hn. lia. }
      rewrite (skipn_nth_error _ _ _ Hn). cbn [walk].
      assert (Hweak : forall new',
                 Forall (fun i => (S iter <= i < length (points_being_drawn_ l))%nat) new' ->
                 Forall (fun i => (iter <= i < length (points_being_drawn_ l))%nat) new').
      { intros new' F. eapply Forall_impl; [ | exact F ]. simpl. intros; lia. }
      destruct (Rlt_dec (ccpDistance start_point end_point) (IZR m)) as [Hd | Hd].
      * unfold iter_minus.
        destruct (Nat.leb_spec 1 (length (points_being_drawn_ l))) as [_ | Hbad];
          [ | lia ].
        destruct (Nat.eqb_spec iter (length (points_being_drawn_ l) - 1)) as [He | He];
          cbn [negb].
        -- assert (Hnil : skipn (S iter) (points_being_drawn_ l) = [])
             by (apply skipn_nil_iff; lia).
           rewrite Hnil.
           destruct (IH (S iter) end_point
                       (AddLineToBody l body start_point end_point) (iter :: tested))
             as [new [E F]]; [ lia | lia | ].
           rewrite Hnil in E. simpl in E.
           exists (new ++ [iter]). rewrite <- app_assoc. simpl. split; [ exact E | ].
           apply Forall_app. split; [ apply Hweak; exact F | ].
           constructor; [ lia | constructor ].
        -- destruct (skipn (S iter) (points_being_drawn_ l)) as [ | q qs] eqn:Hsk.
           { apply skipn_nil_iff in Hsk. lia. }
           destruct (IH (S iter) start_point body (iter :: tested))
             as [new [E F]]; [ lia | lia | ].
           rewrite Hsk in E.
           exists (new ++ [iter]). rewrite <- app_assoc. simpl. split; [ exact E | ].
           apply Forall_app. split; [ apply Hweak; exact F | ].
           constructor; [ lia | constructor ].
      * destruct (IH (S iter) end_point
                    (AddLineToBody l body start_point end_point) tested)
          as [new [E F]]; [ lia | lia | ].
        exists new. split; [ exact E | apply Hweak; exact F ].
Qed.

End Loop.

Lemma build_body_walk (l : PhysicsLayer) (front : CCPoint) (rest : list CCPoint) :
  points_being_drawn_ l = front :: rest ->
  exists tested,
    build_body l
      = Some (walk l (float_to_int (brush_radius_ l)) front rest
                (capped_body l front rest), tested) /\
    Forall (fun i => (1 <= i < length (front :: rest))%nat) tested.
Proof.
  intros Hp. unfold build_body. rewrite Hp.
  destruct (body_loop_walk l (float_to_int (brush_radius_ l))
              (length (points_being_drawn_ l)) 1 front
              (capped_body l front rest) [])
    as [new [E F]].
  - rewrite Hp. simpl. lia.
  - lia.
  - rewrite Hp in E, F. simpl skipn in E. rewrite app_nil_r in E.
    exists new. split; [ exact E | exact F ].
Qed.

Lemma capped_body_fixtures (l : PhysicsLayer) (front : CCPoint) (rest : list CCPoint) :
  exists last_cap,
    m_fixtureList (capped_body l front rest) = [ last_cap; cap_fixture l ] /\
    is_circle last_cap = true /\
    m_xf (capped_body l front rest)
      = {| xf_p := mkVec2 (SCREEN_TO_WORLD (pt_x front)) (SCREEN_TO_WORLD (pt_y front));
           xf_q := b2Rot_Set 0 |}.
Proof.
  unfold capped_body, AddSphereToBody, AddShapeToBody, CreateFixture, CreateBody,
    GetPosition, cap_fixture.
  cbn [m_xf m_fixtureList xf_p vx vy].
  eexists. split; [ | split ].
  - f_equal. f_equal. f_equal. f_equal. f_equal; ring.
  - reflexivity.
  - reflexivity.
Qed.

(** The body [CreatePhysicsBody] returns: where it is, and that the
    circle around its origin is among its fixtures. *)
Lemma CreatePhysicsBody_body (l l' : PhysicsLayer) (body : b2Body) :
  CreatePhysicsBody l = Some (body, l') ->
  exists front rest,
    points_being_drawn_ l = front :: rest /\
    l' = set_points (set_world l (body :: box2d_world_ l)) [] /\
    m_xf body
      = {| xf_p := mkVec2 (SCREEN_TO_WORLD (pt_x front)) (SCREEN_TO_WORLD (pt_y front));
           xf_q := b2Rot_Set 0 |} /\
    In (cap_fixture l) (m_fixtureList body).
Proof.
  intros H. pose proof (CreatePhysicsBody_keeps _ _ _ H) as Hl.
  unfold CreatePhysicsBody in H.
  destruct (points_being_drawn_ l) as [ | front rest] eqn:Hp.
  { unfold build_body in H. rewrite Hp in H. discriminate. }
  destruct (build_body_walk l front rest Hp) as [tested [E _]].
  rewrite E in H. injection H as <- _.
  exists front, rest. split; [ reflexivity | ]. split; [ exact Hl | ].
  destruct (walk_adds_polygons l (float_to_int (brush_radius_ l)) rest front
              (capped_body l front rest)) as [Hx [added [Ef _]]].
  destruct (capped_body_fixtures l front rest) as [c [Hf [_ Hxf]]].
  split; [ congruence | ].
  rewrite Ef, Hf. apply in_or_app. right. right. left. reflexivity.
Qed.

(** ** Shape building: the loop over the computed distance *)

Section LoopBy.

Variable distance_of : CCPoint -> CCPoint -> R.
Variable l : PhysicsLayer.

(** The box of a line is as wide as the computed distance, in simulation
    units: line 398 takes its absolute value. *)
Lemma AddLineToBody_by_fixtures (body : b2Body) (a b : CCPoint) :
  exists f vs,
    m_fixtureList (AddLineToBody_by distance_of l body a b)
      = f :: m_fixtureList body /\
    m_shape f = b2PolygonShape vs /\
    box_width vs = SCREEN_TO_WORLD (Rabs (distance_of a b)) /\
    m_xf (AddLineToBody_by distance_of l body a b) = m_xf body.
Proof.
  unfold AddLineToBody_by, AddShapeToBody, CreateFixture.
  cbn [m_fixtureList m_xf].
  match goal with
  | |- context [SetAsBox ?hx ?hy ?c ?ang] =>
      destruct (SetAsBox hx hy c ang) as [ | vs] eqn:E;
        [ discriminate E | pose proof (box_width_SetAsBox hx hy c ang vs E) as W ]
  end.
  eexists. exists vs. split; [ reflexivity | ]. split; [ reflexivity | ].
  split; [ | reflexivity ].
  rewrite W. unfold SCREEN_TO_WORLD, PTM_RATIO.
  pose proof (Rabs_pos (distance_of a b)) as Hp.
  rewrite Rabs_pos_eq.
  - field.
  - lra.
Qed.

Lemma AddLineToBody_by_exact (body : b2Body) (a b : CCPoint) :
  AddLineToBody_by ccpDistance l body a b = AddLineToBody l body a b.
Proof. reflexivity. Qed.

Variable m : Z.

Lemma walk_by_far (start_point p : CCPoint) (rest : list CCPoint) (body : b2Body) :
  ~ distance_of start_point p < IZR m ->
  walk_by distance_of l m start_point (p :: rest) body
    = walk_by distance_of l m p rest
        (AddLineToBody_by distance_of l body start_point p).
Proof.
  intros H. cbn [walk_by]. by_comparison. reflexivity.
Qed.

Lemma walk_by_final (start_point p : CCPoint) (body : b2Body) :
  walk_by distance_of l m start_point [p] body
    = AddLineToBody_by distance_of l body start_point p.
Proof. cbn [walk_by]. by_comparison; reflexivity. Qed.

Lemma walk_by_skip (start_point p : CCPoint) (rest : list CCPoint) (body : b2Body) :
  distance_of start_point p < IZR m -> rest <> [] ->
  walk_by distance_of l m start_point (p :: rest) body
    = walk_by distance_of l m start_point rest body.
Proof.
  intros H Hne. cbn [walk_by]. by_comparison.
  destruct rest; [ contradiction | reflexivity ].
Qed.

(** After the loop all boxes but the one added last, the one that ends
    at the final point, are as wide as the threshold. *)
Lemma walk_by_widths (rest : list CCPoint) :
  forall (start_point : CCPoint) (body : b2Body),
    boxes_at_least (SCREEN_TO_WORLD (IZR m)) (m_fixtureList body) ->
    rest <> [] ->
    boxes_at_least (SCREEN_TO_WORLD (IZR m))
      (tl (m_fixtureList (walk_by distance_of l m start_point rest body))).
Proof.
  induction rest as [ | p rest' IH]; intros start_point body Hb Hne;
    [ contradiction | ].
  destruct rest' as [ | q rest''].
  - rewrite walk_by_final.
    destruct (AddLineToBody_by_fixtures body start_point p) as [f [vs [E _]]].
    rewrite E. exact Hb.
  - destruct (Rlt_dec (distance_of start_point p) (IZR m)) as [Hd | Hd].
    + rewrite walk_by_skip by (auto; discriminate).
      apply IH; [ exact Hb | discriminate ].
    + rewrite walk_by_far by exact Hd.
      apply IH; [ | discriminate ].
      destruct (AddLineToBody_by_fixtures body start_point p)
        as [f [vs [E [S [W _]]]]].
      rewrite E. intros f' vs' [<- | Hin] Hs.
      * rewrite S in Hs. injection Hs as <-. rewrite W.
        apply SCREEN_TO_WORLD_le.
        pose proof (Rle_abs (distance_of start_point p)). lra.
      * exact (Hb f' vs' Hin Hs).
Qed.

(** The index loop computes [walk_by] on the points from [iter] on and
    never fails when given as many turns as there are points left. *)
Lemma body_loop_by_walk (fuel : nat) :
  forall (iter : nat) (start_point : CCPoint) (body : b2Body) (tested : list nat),
    (iter <= length (points_being_drawn_ l))%nat ->
    (length (points_being_drawn_ l) - iter <= fuel)%nat ->
    exists new,
      body_loop_by distance_of l m fuel iter start_point body tested
        = Some (walk_by distance_of l m start_point
                  (skipn iter (points_being_drawn_ l)) body,
                new ++ tested) /\
      Forall (fun i => (iter <= i < length (points_being_drawn_ l))%nat) new.
Proof.
  induction fuel as [ | fuel IH]; intros iter start_point body tested Hle Hfuel.
  - assert (iter = length (points_being_drawn_ l)) as -> by lia.
    exists []. split; [ | constructor ].
    simpl. rewrite Nat.eqb_refl. rewrite skipn_all. reflexivity.
  - simpl. destruct (Nat.eqb_spec iter (length (points_being_drawn_ l))) as [-> | Hne].
    + exists []. split; [ | constructor ]. rewrite skipn_all. reflexivity.
    + assert (Hlt : (iter < length (points_being_drawn_ l))%nat) by lia.
      destruct (nth_error (points_being_drawn_ l) iter) as [end_point | ] eqn:Hn.
      2:{ apply nth_error_None in Hn. lia. }
      rewrite (skipn_nth_error _ _ _ Hn). cbn [walk_by].
      assert (Hweak : forall new',
                 Forall (fun i => (S iter <= i < length (points_being_drawn_ l))%nat) new' ->
                 Forall (fun i => (iter <= i < length (points_being_drawn_ l))%nat) new').
      { intros new' F. eapply Forall_impl; [ | exact F ]. simpl. intros; lia. }
      destruct (Rlt_dec (distance_of start_point end_point) (IZR m)) as [Hd | Hd].
      * unfold iter_minus.
        destruct (Nat.leb_spec 1 (length (points_being_drawn_ l))) as [_ | Hbad];
          [ | lia ].
        destruct (Nat.eqb_spec iter (length (points_being_drawn_ l) - 1)) as [He | He];
          cbn [negb].
        -- assert (Hnil : skipn (S iter) (points_being_drawn_ l) = [])
             by (apply skipn_nil_iff; lia).
           rewrite Hnil.
           destruct (IH (S iter) end_point
                       (AddLineToBody_by distance_of l body start_point end_point)
                       (iter :: tested))
             as [new [E F]]; [ lia | lia | ].
           rewrite Hnil in E. simpl in E.
           exists (new ++ [iter]). rewrite <- app_assoc. simpl. split; [ exact E | ].
           apply Forall_app. split; [ apply Hweak; exact F | ].
           constructor; [ lia | constructor ].
        -- destruct (skipn (S iter) (points_being_drawn_ l)) as [ | q qs] eqn:Hsk.
           { apply skipn_nil_iff in Hsk. lia. }
           destruct (IH (S iter) start_point body (iter :: tested))
             as [new [E F]]; [ lia | lia | ].
           rewrite Hsk in E.
           exists (new ++ [iter]). rewrite <- app_assoc. simpl. split; [ exact E | ].
           apply Forall_app. split; [ apply Hweak; exact F | ].
           constructor; [ lia | constructor ].
      * destruct (IH (S iter) end_point
                    (AddLineToBody_by distance_of l body start_point end_point) tested)
          as [new [E F]]; [ lia | lia | ].
        exists new. split; [ exact E | apply Hweak; exact F ].
Qed.

End LoopBy.

Lemma build_body_by_walk (distance_of : CCPoint -> CCPoint -> R)
    (l : PhysicsLayer) (front : CCPoint) (rest : list CCPoint) :
  points_being_drawn_ l = front :: rest ->
  exists tested,
    build_body_by distance_of l
      = Some (walk_by distance_of l (float_to_int (brush_radius_ l)) front rest
                (capped_body l front rest), tested) /\
    Forall (fun i => (1 <= i < length (front :: rest))%nat) tested.
Proof.
  intros Hp. unfold build_body_by. rewrite Hp.
  destruct (body_loop_by_walk distance_of l (float_to_int (brush_radius_ l))
              (length (points_being_drawn_ l)) 1 front
              (capped_body l front rest) [])
    as [new [E F]].
  - rewrite Hp. simpl. lia.
  - lia.
  - rewrite Hp in E, F. simpl skipn in E. rewrite app_nil_r in E.
    exists new. split; [ exact E | exact F ].
Qed.

(** With the exact distance the definitions over the computed distance
    are those of the section before. *)
Lemma walk_by_exact (l : PhysicsLayer) (m : Z) (rest : list CCPoint) :
  forall (start_point : CCPoint) (body : b2Body),
    walk_by ccpDistance l m start_point rest body = walk l m start_point rest body.
Proof.
  induction rest as [ | p rest' IH]; intros start_point body; [ reflexivity | ].
  cbn [walk_by walk].
  destruct (Rlt_dec (ccpDistance start_point p) (IZR m));
    [ destruct rest' | ]; apply IH.
Qed.

Lemma body_loop_by_exact (l : PhysicsLayer) (m : Z) (fuel : nat) :
  forall (iter : nat) (start_point : CCPoint) (body : b2Body) (tested : list nat),
    body_loop_by ccpDistance l m fuel iter start_point body tested
      = body_loop l m fuel iter start_point body tested.
Proof.
  induction fuel as [ | fuel IH]; intros iter start_point body tested;
    [ reflexivity | ].
  cbn [body_loop_by body_loop].
  destruct (Nat.eqb iter (length (points_being_drawn_ l))); [ reflexivity | ].
  destruct (nth_error (points_being_drawn_ l) iter) as [end_point | ];
    [ | reflexivity ].
  destruct (Rlt_dec (ccpDistance start_point end_point) (IZR m)); [ | apply IH ].
  destruct (iter_minus (length (points_being_drawn_ l)) 1) as [last_ | ];
    [ | reflexivity ].
  destruct (negb (Nat.eqb iter last_)); apply IH.
Qed.

Lemma CreatePhysicsBody_by_exact (l : PhysicsLayer) :
  CreatePhysicsBody_by ccpDistance l = CreatePhysicsBody l.
Proof.
  unfold CreatePhysicsBody_by, CreatePhysicsBody, build_body_by, build_body.
  destruct (points_being_drawn_ l) as [ | front rest]; [ reflexivity | ].
  rewrite body_loop_by_exact. reflexivity.
Qed.

(** ** Where the computed distance decides *)

(** Two inputs at which a distance rounded to binary32 and the exact
    distance fall on different sides of a threshold; the program does
    what the rounded number says. *)

(** The segment from (0,0) to (1.5, 2 - 2^-23) is a little shorter than
    2.5: by the exact distance it would get 2 stamps, by a computed
    distance of 2.5 it gets 3. *)
Lemma stamps_follow_computed_distance (distance_of : CCPoint -> CCPoint -> R) :
  distance_of (ccp 0 0) (ccp (3 / 2) (2 - 1 / 8388608)) = 5 / 2 ->
  line_count (ccpDistance (ccp 0 0) (ccp (3 / 2) (2 - 1 / 8388608))) = 2%nat /\
  line_count (distance_of (ccp 0 0) (ccp (3 / 2) (2 - 1 / 8388608))) = 3%nat.
Proof.
  intros ->. split.
  - unfold ccpDistance, ccpLength, ccpLengthSQ, ccpDot, ccpSub. cbn [pt_x pt_y].
    set (x := (0 - 3 / 2) * (0 - 3 / 2)
              + (0 - (2 - 1 / 8388608)) * (0 - (2 - 1 / 8388608))).
    assert (Hlo : 2 <= sqrt x).
    { replace 2 with (sqrt (2 * 2)) by (apply sqrt_square; lra).
      apply sqrt_le_1_alt. unfold x. lra. }
    assert (Hhi : sqrt x < 5 / 2).
    { replace (5 / 2) with (sqrt (5 / 2 * (5 / 2))) by (apply sqrt_square; lra).
      apply sqrt_lt_1_alt. unfold x. lra. }
    unfold line_count.
    rewrite (float_to_int_eq (sqrt x + 5 / 10) 2); [ reflexivity | lra | lra ].
  - unfold line_count.
    rewrite (float_to_int_eq (5 / 2 + 5 / 10) 3); [ reflexivity | lra | lra ].
Qed.

(** With the threshold 10, the second point of the stroke (0,0),
    (6, 8 - 2^-21), (100,0) is a little nearer to the first than 10: by
    the exact distance it would be skipped, by a computed distance of 10
    it closes a box. *)
Lemma skip_follows_computed_distance (distance_of : CCPoint -> CCPoint -> R)
    (l : PhysicsLayer) (body : b2Body) :
  distance_of (ccp 0 0) (ccp 6 (8 - 1 / 2097152)) = 10 ->
  walk l 10 (ccp 0 0) [ ccp 6 (8 - 1 / 2097152); ccp 100 0 ] body
    = AddLineToBody l body (ccp 0 0) (ccp 100 0) /\
  walk_by distance_of l 10 (ccp 0 0) [ ccp 6 (8 - 1 / 2097152); ccp 100 0 ] body
    = AddLineToBody_by distance_of l
        (AddLineToBody_by distance_of l body (ccp 0 0) (ccp 6 (8 - 1 / 2097152)))
        (ccp 6 (8 - 1 / 2097152)) (ccp 100 0).
Proof.
  intros Hd. split.
  - rewrite walk_skip; [ apply walk_final | | discriminate ].
    unfold ccpDistance, ccpLength, ccpLengthSQ, ccpDot, ccpSub. cbn [pt_x pt_y].
    replace (IZR 10) with (sqrt (10 * 10)) by (apply sqrt_square; lra).
    apply sqrt_lt_1_alt. lra.
  - rewrite walk_by_far by (rewrite Hd; lra). apply walk_by_final.
Qed.

(** ** Shape building: what a stroke gives *)

(** C8.  For a non-empty point sequence [CreatePhysicsBody] runs its loop
    to the end without reading outside the sequence, and whenever the
    comparison [iter != points_being_drawn_.end() - 1] is evaluated the
    sequence has at least two elements, [iter] lies inside it and
    [end() - 1] is its last position.  With one element the loop is not
    entered: the comparison is never evaluated and the body is left with
    its two circles. *)
Theorem skip_test_within_sequence (l : PhysicsLayer) :
  points_being_drawn_ l <> [] ->
  exists body tested,
    build_body l = Some (body, tested) /\
    (forall i, In i tested ->
       (2 <= length (points_being_drawn_ l))%nat /\
       (1 <= i < length (points_being_drawn_ l))%nat /\
       iter_minus (length (points_being_drawn_ l)) 1
         = Some (length (points_being_drawn_ l) - 1)%nat) /\
    (forall p, points_being_drawn_ l = [p] ->
       tested = [] /\ body = capped_body l p []).
Proof.
  intros Hne.
  destruct (points_being_drawn_ l) as [ | front rest] eqn:Hp; [ contradiction | ].
  destruct (build_body_walk l front rest Hp) as [tested [E F]].
  exists (walk l (float_to_int (brush_radius_ l)) front rest (capped_body l front rest)).
  exists tested. split; [ exact E | ].
  rewrite Forall_forall in F. split.
  - intros i Hi. specialize (F i Hi). simpl in *. repeat split; try lia.
  - intros p [= -> ->]. split; [ | reflexivity ].
    destruct tested as [ | i tested]; [ reflexivity | ].
    specialize (F i (or_introl eq_refl)). simpl in *. lia.
Qed.

Lemma skip_test_within_sequence_witness :
  points_being_drawn_ sample_near <> [] /\
  exists body tested,
    build_body sample_near = Some (body, tested) /\
    (forall i, In i tested ->
       (2 <= length (points_being_drawn_ sample_near))%nat /\
       (1 <= i < length (points_being_drawn_ sample_near))%nat /\
       iter_minus (length (points_being_drawn_ sample_near)) 1
         = Some (length (points_being_drawn_ sample_near) - 1)%nat) /\
    (forall p, points_being_drawn_ sample_near = [p] ->
       tested = [] /\ body = capped_body sample_near p []).
Proof.
  assert (H : points_being_drawn_ sample_near <> []) by (cbn; discriminate).
  split; [ exact H | apply (skip_test_within_sequence sample_near H) ].
Defined.

(** C5.  A stroke of one point gives a body with exactly two fixtures,
    both circles of radius [SCREEN_TO_WORLD(brush_radius_)] with the same
    centre, the body's own origin, which lies at the stroke point in
    simulation units; there is no box. *)
Theorem single_point_stroke (l : PhysicsLayer) (p : CCPoint) :
  points_being_drawn_ l = [p] ->
  exists body l',
    CreatePhysicsBody l = Some (body, l') /\
    m_fixtureList body = [ cap_fixture l; cap_fixture l ] /\
    m_shape (cap_fixture l)
      = b2CircleShape (mkVec2 0 0) (SCREEN_TO_WORLD (brush_radius_ l)) /\
    b2Mul (GetTransform body) (mkVec2 0 0)
      = mkVec2 (SCREEN_TO_WORLD (pt_x p)) (SCREEN_TO_WORLD (pt_y p)) /\
    circle_count body = 2%nat /\
    box_count body = 0%nat.
Proof.
  intros Hp.
  destruct (build_body_walk l p [] Hp) as [tested [E _]].
  unfold CreatePhysicsBody. rewrite E. cbn [walk].
  eexists. eexists. split; [ reflexivity | ].
  assert (Hf : m_fixtureList (capped_body l p []) = [ cap_fixture l; cap_fixture l ]).
  { unfold capped_body, AddSphereToBody, AddShapeToBody, CreateFixture, CreateBody,
      GetPosition, cap_fixture.
    cbn [m_xf m_fixtureList xf_p vx vy last].
    f_equal; [ | f_equal ]; f_equal; f_equal; f_equal; ring. }
  split; [ exact Hf | ]. split; [ reflexivity | ]. split.
  - destruct (capped_body_fixtures l p []) as [c [_ [_ Hx]]].
    unfold GetTransform. rewrite Hx. unfold b2Mul, b2Rot_Set. simpl.
    rewrite sin_0, cos_0. f_equal; ring.
  - unfold circle_count, box_count. rewrite Hf. split; reflexivity.
Qed.

Lemma single_point_stroke_witness :
  points_being_drawn_ sample_capturing = [ccp 0 0] /\
  exists body l',
    CreatePhysicsBody sample_capturing = Some (body, l') /\
    m_fixtureList body = [ cap_fixture sample_capturing; cap_fixture sample_capturing ] /\
    m_shape (cap_fixture sample_capturing)
      = b2CircleShape (mkVec2 0 0) (SCREEN_TO_WORLD (brush_radius_ sample_capturing)) /\
    b2Mul (GetTransform body) (mkVec2 0 0)
      = mkVec2 (SCREEN_TO_WORLD (pt_x (ccp 0 0)))
               (SCREEN_TO_WORLD (pt_y (ccp 0 0))) /\
    circle_count body = 2%nat /\
    box_count body = 0%nat.
Proof.
  split; [ reflexivity | ].
  apply (single_point_stroke sample_capturing (ccp 0 0)). reflexivity.
Defined.





(** C4.  In the walk over the stroke a point whose distance from the
    current segment start, as the program computes it on line 351 (the
    number the call of [ccpDistance] returns), is less than the
    threshold, the brush radius cut down to an integer
    ([min_box_length]), is skipped unless it is the final point: no
    fixture is added and the segment start stays.  The final point is
    never skipped.  So on the produced body every box fixture, except
    possibly the one added last, which ends at the final point, is at
    least [SCREEN_TO_WORLD(min_box_length)] wide.  Whatever number the
    call returns: the exact distance ([CreatePhysicsBody_by_exact],
    [walk_by_exact]) or a rounded one. *)
Theorem near_points_are_merged (distance_of : CCPoint -> CCPoint -> R)
    (l : PhysicsLayer) (front : CCPoint) (rest : list CCPoint) :
  points_being_drawn_ l = front :: rest ->
  (forall start_point p more body,
      distance_of start_point p < IZR (float_to_int (brush_radius_ l)) ->
      more <> [] ->
      walk_by distance_of l (float_to_int (brush_radius_ l)) start_point
              (p :: more) body
        = walk_by distance_of l (float_to_int (brush_radius_ l)) start_point
                  more body) /\
  (forall start_point p body,
      walk_by distance_of l (float_to_int (brush_radius_ l)) start_point [p] body
        = AddLineToBody_by distance_of l body start_point p) /\
  exists body l',
    CreatePhysicsBody_by distance_of l = Some (body, l') /\
    body = walk_by distance_of l (float_to_int (brush_radius_ l)) front rest
             (capped_body l front rest) /\
    forall f vs,
      In f (tl (m_fixtureList body)) ->
      m_shape f = b2PolygonShape vs ->
      SCREEN_TO_WORLD (IZR (float_to_int (brush_radius_ l))) <= box_width vs.
Proof.
  intros Hp. split; [ | split ].
  - intros start_point p more body Hd Hne. apply walk_by_skip; assumption.
  - intros. apply walk_by_final.
  - destruct (build_body_by_walk distance_of l front rest Hp) as [tested [E _]].
    unfold CreatePhysicsBody_by. rewrite E.
    eexists. eexists. split; [ reflexivity | ]. split; [ reflexivity | ].
    assert (Hcap : boxes_at_least
                     (SCREEN_TO_WORLD (IZR (float_to_int (brush_radius_ l))))
                     (m_fixtureList (capped_body l front rest))).
    { destruct (capped_body_fixtures l front rest) as [c [Hf [Hc _]]].
      rewrite Hf. intros f vs [<- | [<- | []]] Hs.
      - unfold is_circle in Hc. rewrite Hs in Hc. discriminate.
      - discriminate Hs. }
    destruct rest as [ | p rest'].
    + cbn [walk_by]. intros f vs Hin. apply Hcap.
      destruct (m_fixtureList (capped_body l front [])); [ destruct Hin | ].
      right. exact Hin.
    + apply walk_by_widths; [ exact Hcap | discriminate ].
Qed.

Lemma near_points_are_merged_witness :
  points_being_drawn_ sample_near = ccp 0 0 :: [ ccp (41 / 4) 0; ccp 100 0 ] /\
  ((forall start_point p more body,
      ccpDistance start_point p < IZR (float_to_int (brush_radius_ sample_near)) ->
      more <> [] ->
      walk_by ccpDistance sample_near (float_to_int (brush_radius_ sample_near))
              start_point (p :: more) body
        = walk_by ccpDistance sample_near (float_to_int (brush_radius_ sample_near))
                  start_point more body) /\
   (forall start_point p body,
      walk_by ccpDistance sample_near (float_to_int (brush_radius_ sample_near))
              start_point [p] body
        = AddLineToBody_by ccpDistance sample_near body start_point p) /\
   exists body l',
     CreatePhysicsBody_by ccpDistance sample_near = Some (body, l') /\
     body = walk_by ccpDistance sample_near
              (float_to_int (brush_radius_ sample_near)) (ccp 0 0)
              [ ccp (41 / 4) 0; ccp 100 0 ]
              (capped_body sample_near (ccp 0 0) [ ccp (41 / 4) 0; ccp 100 0 ]) /\
     forall f vs,
       In f (tl (m_fixtureList body)) ->
       m_shape f = b2PolygonShape vs ->
       SCREEN_TO_WORLD (IZR (float_to_int (brush_radius_ sample_near)))
         <= box_width vs).
Proof.
  split; [ reflexivity | ].
  apply (near_points_are_merged ccpDistance sample_near (ccp 0 0)
           [ ccp (41 / 4) 0; ccp 100 0 ]).
  reflexivity.
Defined.

Lemma sample_near_threshold : float_to_int (brush_radius_ sample_near) = 10%Z.
Proof.
  rewrite (sample_radius _ sample_near_reachable).
  apply float_to_int_eq; lra.
Qed.

(** C4 as stated, with the brush radius itself as the threshold, fails for
    a brush of odd size.  With radius 10.5 the loop compares with 10: the
    second point of the stroke (0,0), (10.25,0), (100,0) is nearer to the
    first than the radius and is not the final point, yet it is not
    skipped, and the box it closes is narrower than
    [SCREEN_TO_WORLD(brush_radius_)] although it is not the last one. *)
Lemma near_point_odd_brush_not_merged :
  ccpDistance (ccp 0 0) (ccp (41 / 4) 0) < brush_radius_ sample_near /\
  walk sample_near (float_to_int (brush_radius_ sample_near)) (ccp 0 0)
       [ ccp (41 / 4) 0; ccp 100 0 ]
       (capped_body sample_near (ccp 0 0) [ ccp (41 / 4) 0; ccp 100 0 ])
    <> walk sample_near (float_to_int (brush_radius_ sample_near)) (ccp 0 0)
         [ ccp 100 0 ]
         (capped_body sample_near (ccp 0 0) [ ccp (41 / 4) 0; ccp 100 0 ]) /\
  exists body l' f vs,
    CreatePhysicsBody sample_near = Some (body, l') /\
    In f (tl (m_fixtureList body)) /\
    m_shape f = b2PolygonShape vs /\
    box_width vs < SCREEN_TO_WORLD (brush_radius_ sample_near).
Proof.
  assert (D1 : ccpDistance (ccp 0 0) (ccp (41 / 4) 0) = 41 / 4)
    by (rewrite ccpDistance_horizontal; lra).
  assert (D2 : ccpDistance (ccp (41 / 4) 0) (ccp 100 0) = 359 / 4)
    by (rewrite ccpDistance_horizontal; lra).
  assert (D3 : ccpDistance (ccp 0 0) (ccp 100 0) = 100)
    by (rewrite ccpDistance_horizontal; lra).
  assert (F1 : ~ ccpDistance (ccp 0 0) (ccp (41 / 4) 0) < IZR 10) by (rewrite D1; lra).
  assert (F2 : ~ ccpDistance (ccp (41 / 4) 0) (ccp 100 0) < IZR 10) by (rewrite D2; lra).
  assert (F3 : ~ ccpDistance (ccp 0 0) (ccp 100 0) < IZR 10) by (rewrite D3; lra).
  rewrite sample_near_threshold.
  split; [ rewrite D1, (sample_radius _ sample_near_reachable); lra | ]. split.
  - intros H. apply (f_equal box_count) in H.
    destruct (walk_well_spaced sample_near 10 [ ccp (41 / 4) 0; ccp 100 0 ] (ccp 0 0)
                (capped_body sample_near (ccp 0 0) [ ccp (41 / 4) 0; ccp 100 0 ]))
      as [C2 _]; [ cbn [well_spaced]; tauto | ].
    destruct (walk_well_spaced sample_near 10 [ ccp 100 0 ] (ccp 0 0)
                (capped_body sample_near (ccp 0 0) [ ccp (41 / 4) 0; ccp 100 0 ]))
      as [C1 _]; [ cbn [well_spaced]; tauto | ].
    rewrite C1, C2 in H. simpl in H. lia.
  - destruct (build_body_walk sample_near (ccp 0 0) [ ccp (41 / 4) 0; ccp 100 0 ]
                eq_refl) as [tested [E _]].
    unfold CreatePhysicsBody. rewrite E, sample_near_threshold.
    rewrite (walk_far _ _ _ _ _ _ F1), walk_final.
    set (cap := capped_body sample_near (ccp 0 0) [ ccp (41 / 4) 0; ccp 100 0 ]).
    destruct (AddLineToBody_fixtures sample_near cap (ccp 0 0) (ccp (41 / 4) 0))
      as [f1 [vs1 [E1 [S1 [W1 _]]]]].
    destruct (AddLineToBody_fixtures sample_near
                (AddLineToBody sample_near cap (ccp 0 0) (ccp (41 / 4) 0))
                (ccp (41 / 4) 0) (ccp 100 0))
      as [f2 [vs2 [E2 _]]].
    eexists. eexists. exists f1. exists vs1.
    split; [ reflexivity | ]. rewrite E2, E1. cbn [tl].
    split; [ left; reflexivity | ]. split; [ exact S1 | ].
    rewrite W1, D1, (sample_radius _ sample_near_reachable). unfold SCREEN_TO_WORLD, PTM_RATIO. lra.
Qed.

(** ** Bounds of a body *)

Lemma update_extremes_join (e : Extremes) (lox hix loy hiy : R) :
  update_extremes e lox hix loy hiy = join_extremes e (mkExtremes lox hix loy hiy).
Proof.
  unfold update_extremes, join_extremes, Rmin, Rmax. cbn [minX maxX minY maxY].
  f_equal.
  - destruct (Rlt_dec lox (minX e)), (Rle_dec (minX e) lox); lra.
  - destruct (Rgt_dec hix (maxX e)), (Rle_dec (maxX e) hix); lra.
  - destruct (Rlt_dec loy (minY e)), (Rle_dec (minY e) loy); lra.
  - destruct (Rgt_dec hiy (maxY e)), (Rle_dec (maxY e) hiy); lra.
Qed.

(** The loop of [CalcBodyBounds] folds the candidate extents of all
    fixtures into the running extremes. *)
Lemma bounds_of_fixture_join (xform : b2Transform) (f : b2Fixture) (e : Extremes) :
  bounds_of_fixture xform e f
    = fold_left join_extremes (fixture_extents xform f) e.
Proof.
  unfold bounds_of_fixture, fixture_extents.
  destruct (m_shape f) as [m_p m_radius | vs].
  - cbn [fold_left]. apply update_extremes_join.
  - revert e. induction vs as [ | v vs IH]; intros e; cbn [fold_left map].
    + reflexivity.
    + rewrite IH. rewrite update_extremes_join. reflexivity.
Qed.

Lemma fold_bounds_join (xform : b2Transform) (fs : list b2Fixture) (e : Extremes) :
  fold_left (bounds_of_fixture xform) fs e
    = fold_left join_extremes (flat_map (fixture_extents xform) fs) e.
Proof.
  revert e. induction fs as [ | f fs IH]; intros e; cbn [fold_left flat_map].
  - reflexivity.
  - rewrite fold_left_app, IH, bounds_of_fixture_join. reflexivity.
Qed.





(** The extremes only move outwards. *)

Lemma extends_refl (e : Extremes) : extends e e.
Proof. unfold extends. lra. Qed.

Lemma extends_trans (a b c : Extremes) : extends a b -> extends b c -> extends a c.
Proof. unfold extends. lra. Qed.

Lemma join_extends_left (e c : Extremes) : extends e (join_extremes e c).
Proof.
  unfold extends, join_extremes. cbn [minX maxX minY maxY].
  pose proof (Rmin_l (minX e) (minX c)). pose proof (Rmax_l (maxX e) (maxX c)).
  pose proof (Rmin_l (minY e) (minY c)). pose proof (Rmax_l (maxY e) (maxY c)).
  lra.
Qed.

Lemma join_extends_right (e c : Extremes) : extends c (join_extremes e c).
Proof.
  unfold extends, join_extremes. cbn [minX maxX minY maxY].
  pose proof (Rmin_r (minX e) (minX c)). pose proof (Rmax_r (maxX e) (maxX c)).
  pose proof (Rmin_r (minY e) (minY c)). pose proof (Rmax_r (maxY e) (maxY c)).
  lra.
Qed.

Create HintDb extremes.
#[local] Hint Resolve extends_refl join_extends_left join_extends_right : extremes.

Lemma fold_join_extends (cs : list Extremes) (e : Extremes) :
  extends e (fold_left join_extremes cs e).
Proof.
  revert e. induction cs as [ | c cs IH]; intros e; cbn [fold_left];
    eauto using extends_trans with extremes.
Qed.

Lemma fold_join_covers (cs : list Extremes) (e c : Extremes) :
  In c cs -> extends c (fold_left join_extremes cs e).
Proof.
  revert e. induction cs as [ | c' cs IH]; intros e Hin; [ destruct Hin | ].
  cbn [fold_left]. destruct Hin as [-> | Hin];
    eauto using extends_trans, fold_join_extends with extremes.
Qed.




(** The extremes the loop of [CalcBodyBounds] ends with enclose every
    circle fixture of the body. *)
Lemma bounds_cover_circle (xform : b2Transform) (fs : list b2Fixture)
    (f : b2Fixture) (m_p : b2Vec2) (m_radius : R) :
  In f fs -> m_shape f = b2CircleShape m_p m_radius ->
  extends
    (mkExtremes (vx (b2Mul xform m_p) - m_radius) (vx (b2Mul xform m_p) + m_radius)
                (vy (b2Mul xform m_p) - m_radius) (vy (b2Mul xform m_p) + m_radius))
    (fold_left (bounds_of_fixture xform) fs initial_extremes).
Proof.
  intros Hin Hs. rewrite fold_bounds_join. apply fold_join_covers.
  apply in_flat_map. exists f. split; [ exact Hin | ].
  unfold fixture_extents. rewrite Hs. left. reflexivity.
Qed.

(** ** The sprite of a body *)

(** C2.  For a body built from a non-empty stroke with a brush of
    positive radius, the sprite made for it has a texture rectangle of
    positive width and height, the bounds inflated by the brush radius,
    and its anchor point,
    [((bodyX - rectX) / rectWidth,
      (bodyY + rectY + rectHeight - viewportHeight) / rectHeight)],
    lies in the unit square. *)
Theorem sprite_anchor_in_unit_square (l : PhysicsLayer) :
  points_being_drawn_ l <> [] ->
  render_target_ l <> None ->
  0 < brush_radius_ l ->
  exists body l' sprite,
    CreatePhysicsBody l = Some (body, l') /\
    CreatePhysicsSprite l' body = Some sprite /\
    sp_rect sprite
      = CCRectMake
          (pt_x (origin (CalcBodyBounds (win_size l) body)) - brush_radius_ l)
          (pt_y (origin (CalcBodyBounds (win_size l) body)) - brush_radius_ l)
          (width (size (CalcBodyBounds (win_size l) body)) + brush_radius_ l)
          (height (size (CalcBodyBounds (win_size l) body)) + brush_radius_ l) /\
    pt_x (sp_anchor sprite)
      = (WORLD_TO_SCREEN (vx (GetPosition body)) - pt_x (origin (sp_rect sprite)))
        / width (size (sp_rect sprite)) /\
    pt_y (sp_anchor sprite)
      = (WORLD_TO_SCREEN (vy (GetPosition body)) + pt_y (origin (sp_rect sprite))
         + height (size (sp_rect sprite)) - height (win_size l))
        / height (size (sp_rect sprite)) /\
    0 < width (size (sp_rect sprite)) /\
    0 < height (size (sp_rect sprite)) /\
    0 <= pt_x (sp_anchor sprite) <= 1 /\
    0 <= pt_y (sp_anchor sprite) <= 1.
Proof.
  intros Hne Hrt Hr.
  destruct (render_target_ l) as [rt | ] eqn:Ert; [ clear Hrt | contradiction ].
  destruct (points_being_drawn_ l) as [ | front rest] eqn:Hp; [ contradiction | ].
  destruct (build_body_walk l front rest Hp) as [tested [E _]].
  assert (Hb : CreatePhysicsBody l
               = Some (walk l (float_to_int (brush_radius_ l)) front rest
                         (capped_body l front rest),
                       set_points
                         (set_world l
                            (walk l (float_to_int (brush_radius_ l)) front rest
                               (capped_body l front rest) :: box2d_world_ l)) [])).
  { unfold CreatePhysicsBody. rewrite E. reflexivity. }
  set (body := walk l (float_to_int (brush_radius_ l)) front rest
                 (capped_body l front rest)) in *.
  destruct (CreatePhysicsBody_body _ _ _ Hb) as [front' [rest' [Hp' [_ [Hxf Hin]]]]].
  rewrite Hp in Hp'. injection Hp' as <- <-.
  exists body. eexists. eexists. split; [ exact Hb | ].
  unfold CreatePhysicsSprite.
  cbn [render_target_ set_points set_world brush_radius_ win_size].
  rewrite Ert. split; [ reflexivity | ].
  cbn [sp_rect sp_anchor pt_x pt_y].
  split; [ reflexivity | ]. split; [ reflexivity | ]. split; [ reflexivity | ].
  pose proof (bounds_cover_circle (GetTransform body) (m_fixtureList body)
                (cap_fixture l) (mkVec2 0 0) (SCREEN_TO_WORLD (brush_radius_ l))
                Hin eq_refl) as Hcov.
  unfold CalcBodyBounds, CCRectMake.
  set (e := fold_left (bounds_of_fixture (GetTransform body)) (m_fixtureList body)
              initial_extremes) in *.
  unfold GetPosition, GetTransform in *. rewrite Hxf in *.
  unfold b2Mul, b2Rot_Set in Hcov.
  cbn [vx vy xf_p xf_q rot_s rot_c] in Hcov. rewrite sin_0, cos_0 in Hcov.
  unfold extends in Hcov. cbn [minX maxX minY maxY] in Hcov.
  cbn [origin size pt_x pt_y width height vx vy xf_p].
  unfold WORLD_TO_SCREEN, SCREEN_TO_WORLD, PTM_RATIO in *.
  destruct Hcov as [H1 [H2 [H3 H4]]].
  split; [ lra | ]. split; [ lra | ].
  split; apply unit_fraction; lra.
Qed.

Lemma sprite_anchor_in_unit_square_witness :
  points_being_drawn_ sample_straight <> [] /\
  render_target_ sample_straight <> None /\
  0 < brush_radius_ sample_straight /\
  exists body l' sprite,
    CreatePhysicsBody sample_straight = Some (body, l') /\
    CreatePhysicsSprite l' body = Some sprite /\
    sp_rect sprite
      = CCRectMake
          (pt_x (origin (CalcBodyBounds (win_size sample_straight) body))
           - brush_radius_ sample_straight)
          (pt_y (origin (CalcBodyBounds (win_size sample_straight) body))
           - brush_radius_ sample_straight)
          (width (size (CalcBodyBounds (win_size sample_straight) body))
           + brush_radius_ sample_straight)
          (height (size (CalcBodyBounds (win_size sample_straight) body))
           + brush_radius_ sample_straight) /\
    pt_x (sp_anchor sprite)
      = (WORLD_TO_SCREEN (vx (GetPosition body)) - pt_x (origin (sp_rect sprite)))
        / width (size (sp_rect sprite)) /\
    pt_y (sp_anchor sprite)
      = (WORLD_TO_SCREEN (vy (GetPosition body)) + pt_y (origin (sp_rect sprite))
         + height (size (sp_rect sprite)) - height (win_size sample_straight))
        / height (size (sp_rect sprite)) /\
    0 < width (size (sp_rect sprite)) /\
    0 < height (size (sp_rect sprite)) /\
    0 <= pt_x (sp_anchor sprite) <= 1 /\
    0 <= pt_y (sp_anchor sprite) <= 1.
Proof.
  assert (H1 : points_being_drawn_ sample_straight <> []) by (cbn; discriminate).
  assert (H2 : render_target_ sample_straight <> None) by (cbn; discriminate).
  assert (H3 : 0 < brush_radius_ sample_straight)
    by (rewrite (sample_radius _ sample_straight_reachable); lra).
  split; [ exact H1 | ]. split; [ exact H2 | ]. split; [ exact H3 | ].
  apply (sprite_anchor_in_unit_square sample_straight H1 H2 H3).
Defined.

(** * Further properties of the code *)

(** ** The angle of a box *)

Lemma sqrt_sum_squares_factor (x y : R) :
  x <> 0 ->
  sqrt (x * x + y * y) = Rabs x * sqrt (1 + (y / x)²).
Proof.
  intros Hx.
  replace (x * x + y * y) with (Rsqr x * (1 + (y / x)²))
    by (unfold Rsqr; field; exact Hx).
  rewrite sqrt_mult.
  - rewrite sqrt_Rsqr_abs. reflexivity.
  - apply Rle_0_sqr.
  - pose proof (Rle_0_sqr (y / x)). lra.
Qed.

(** [atan2(y, x)] is the direction of [(x, y)]: the vector is its length
    times the cosine and sine of that angle. *)
Lemma atan2_polar (y x : R) :
  sqrt (x * x + y * y) * cos (atan2 y x) = x /\
  sqrt (x * x + y * y) * sin (atan2 y x) = y.
Proof.
  unfold atan2.
  destruct (Rlt_dec 0 x) as [Hpos | Hnpos].
  - assert (Hs : 0 < sqrt (1 + (y / x)²)).
    { apply sqrt_lt_R0. pose proof (Rle_0_sqr (y / x)). lra. }
    rewrite sqrt_sum_squares_factor by lra.
    rewrite cos_atan, sin_atan, Rabs_pos_eq by lra.
    split; field; lra.
  - destruct (Rlt_dec x 0) as [Hneg | Hnneg].
    + assert (Hs : 0 < sqrt (1 + (y / x)²)).
      { apply sqrt_lt_R0. pose proof (Rle_0_sqr (y / x)). lra. }
      rewrite sqrt_sum_squares_factor by lra.
      rewrite Rabs_left by lra.
      destruct (Rle_dec 0 y).
      * rewrite neg_cos, neg_sin, cos_atan, sin_atan. split; field; lra.
      * unfold Rminus. rewrite <- (Ropp_involutive (atan (y / x) + - PI)).
        rewrite cos_neg, sin_neg.
        replace (- (atan (y / x) + - PI)) with (- atan (y / x) + PI) by ring.
        rewrite neg_cos, neg_sin, cos_neg, sin_neg, cos_atan, sin_atan.
        split; field; lra.
    + assert (x = 0) by lra. subst x.
      replace (0 * 0 + y * y) with (Rsqr y) by (unfold Rsqr; ring).
      rewrite sqrt_Rsqr_abs.
      destruct (Rlt_dec 0 y).
      * rewrite cos_PI2, sin_PI2, Rabs_pos_eq by lra. split; ring.
      * destruct (Rlt_dec y 0).
        -- rewrite cos_neg, sin_neg, cos_PI2, sin_PI2, Rabs_left by lra. split; ring.
        -- assert (y = 0) by lra. subst y. rewrite Rabs_R0. split; ring.
Qed.

(** ** The box of a segment *)

(** X1.  The box [AddLineToBody] attaches for the segment from [start] to
    [end] lies along that segment: relative to the body origin its centre
    is the middle of the segment in simulation units, its long edges are
    parallel to the segment and as long as the distance the program
    computed, in simulation units, and its short edges are as long as the
    brush is high. *)
Theorem box_lies_along_segment (distance_of : CCPoint -> CCPoint -> R)
    (l : PhysicsLayer) (body : b2Body) (start end_ : CCPoint) :
  exists f v0 v1 v2 v3,
    m_fixtureList (AddLineToBody_by distance_of l body start end_)
      = f :: m_fixtureList body /\
    m_shape f = b2PolygonShape [v0; v1; v2; v3] /\
    vx (midpoint v0 v2) + vx (GetPosition body)
      = (vx (toSim start) + vx (toSim end_)) / 2 /\
    vy (midpoint v0 v2) + vy (GetPosition body)
      = (vy (toSim start) + vy (toSim end_)) / 2 /\
    midpoint v1 v3 = midpoint v0 v2 /\
    (vx v1 - vx v0) * (pt_y end_ - pt_y start)
      = (vy v1 - vy v0) * (pt_x end_ - pt_x start) /\
    (vx v2 - vx v3) * (pt_y end_ - pt_y start)
      = (vy v2 - vy v3) * (pt_x end_ - pt_x start) /\
    edge_length v0 v1 = SCREEN_TO_WORLD (Rabs (distance_of start end_)) /\
    edge_length v3 v2 = SCREEN_TO_WORLD (Rabs (distance_of start end_)) /\
    edge_length v1 v2 = Rabs (SCREEN_TO_WORLD (height (brush_ l))) /\
    edge_length v0 v3 = Rabs (SCREEN_TO_WORLD (height (brush_ l))).
Proof.
  pose proof (Rabs_pos (distance_of start end_)) as Hd.
  destruct (atan2_polar (pt_y start - pt_y end_) (pt_x start - pt_x end_))
    as [Hc Hs].
  unfold AddLineToBody_by, AddShapeToBody, CreateFixture, SetAsBox.
  cbn [m_fixtureList m_xf map].
  do 5 eexists. split; [ reflexivity | ]. split; [ reflexivity | ].
  unfold midpoint, edge_length, toSim, b2Mul, b2Rot_Set, line_height,
    GetPosition.
  cbn [vx vy xf_p xf_q rot_s rot_c].
  set (a := atan2 (pt_y start - pt_y end_) (pt_x start - pt_x end_)) in *.
  set (r := sqrt ((pt_x start - pt_x end_) * (pt_x start - pt_x end_)
                  + (pt_y start - pt_y end_) * (pt_y start - pt_y end_))) in *.
  set (d := Rabs (distance_of start end_)) in *.
  set (h := height (brush_ l)).
  unfold SCREEN_TO_WORLD, PTM_RATIO.
  assert (Hlong : forall k : R,
             sqrt (k * d / 32 * cos a * (k * d / 32 * cos a)
                   + k * d / 32 * sin a * (k * d / 32 * sin a))
             = Rabs k * (d / 32)).
  { intros k.
    replace (k * d / 32 * cos a * (k * d / 32 * cos a)
             + k * d / 32 * sin a * (k * d / 32 * sin a))
      with (Rsqr (k * (d / 32)) * (Rsqr (sin a) + Rsqr (cos a)))
      by (unfold Rsqr; field).
    rewrite sin2_cos2, Rmult_1_r, sqrt_Rsqr_abs, Rabs_mult.
    rewrite (Rabs_pos_eq (d / 32)) by lra. reflexivity. }
  assert (Hshort : forall k : R,
             sqrt (k * (h / 32) * sin a * (k * (h / 32) * sin a)
                   + k * (h / 32) * cos a * (k * (h / 32) * cos a))
             = Rabs k * Rabs (h / 32)).
  { intros k.
    replace (k * (h / 32) * sin a * (k * (h / 32) * sin a)
             + k * (h / 32) * cos a * (k * (h / 32) * cos a))
      with (Rsqr (k * (h / 32)) * (Rsqr (sin a) + Rsqr (cos a)))
      by (unfold Rsqr; field).
    rewrite sin2_cos2, Rmult_1_r, sqrt_Rsqr_abs, Rabs_mult. reflexivity. }
  split; [ field | ]. split; [ field | ].
  split; [ f_equal; field | ].
  split.
  { replace (pt_y end_ - pt_y start) with (- (r * sin a)) by (rewrite Hs; ring).
    replace (pt_x end_ - pt_x start) with (- (r * cos a)) by (rewrite Hc; ring).
    field. }
  split.
  { replace (pt_y end_ - pt_y start) with (- (r * sin a)) by (rewrite Hs; ring).
    replace (pt_x end_ - pt_x start) with (- (r * cos a)) by (rewrite Hc; ring).
    field. }
  split; [ | split; [ | split ] ].
  - match goal with |- sqrt ?e = _ =>
      replace e with (1 * d / 32 * cos a * (1 * d / 32 * cos a)
                      + 1 * d / 32 * sin a * (1 * d / 32 * sin a)) by field end.
    rewrite Hlong, Rabs_R1. ring.
  - match goal with |- sqrt ?e = _ =>
      replace e with (1 * d / 32 * cos a * (1 * d / 32 * cos a)
                      + 1 * d / 32 * sin a * (1 * d / 32 * sin a)) by field end.
    rewrite Hlong, Rabs_R1. ring.
  - match goal with |- sqrt ?e = _ =>
      replace e with (1 * (h / 32) * sin a * (1 * (h / 32) * sin a)
                      + 1 * (h / 32) * cos a * (1 * (h / 32) * cos a)) by field end.
    rewrite Hshort, Rabs_R1. ring.
  - match goal with |- sqrt ?e = _ =>
      replace e with (1 * (h / 32) * sin a * (1 * (h / 32) * sin a)
                      + 1 * (h / 32) * cos a * (1 * (h / 32) * cos a)) by field end.
    rewrite Hshort, Rabs_R1. ring.
Qed.

(** ** The chain of boxes *)

Section Chain.

(** The distance as the program computes it. *)
Variable distance_of : CCPoint -> CCPoint -> R.

Lemma AddLineToBody_by_counts (l : PhysicsLayer) (body : b2Body) (a b : CCPoint) :
  box_count (AddLineToBody_by distance_of l body a b) = S (box_count body) /\
  circle_count (AddLineToBody_by distance_of l body a b) = circle_count body.
Proof. split; reflexivity. Qed.

Lemma subseq_refl {A : Type} (xs : list A) : subseq xs xs.
Proof. induction xs; constructor; assumption. Qed.

Lemma waypoints_subseq (m : Z) (rest : list CCPoint) :
  forall start_point, subseq (waypoints distance_of m start_point rest) rest.
Proof.
  induction rest as [ | p rest' IH]; intros start_point; cbn [waypoints].
  - constructor.
  - destruct (Rlt_dec (distance_of start_point p) (IZR m)).
    + destruct rest' as [ | q rest''].
      * apply subseq_refl.
      * apply subseq_skip. apply IH.
    + apply subseq_keep. apply IH.
Qed.

Lemma waypoints_nonempty (m : Z) (rest : list CCPoint) :
  forall start_point, rest <> [] -> waypoints distance_of m start_point rest <> [].
Proof.
  induction rest as [ | p rest' IH]; intros start_point Hne; [ contradiction | ].
  cbn [waypoints].
  destruct (Rlt_dec (distance_of start_point p) (IZR m)).
  - destruct rest' as [ | q rest'']; [ discriminate | ].
    apply IH. discriminate.
  - discriminate.
Qed.

Lemma last_cons_nonempty {A : Type} (x d : A) (xs : list A) :
  xs <> [] -> last (x :: xs) d = last xs d.
Proof. destruct xs; [ contradiction | reflexivity ]. Qed.

Lemma waypoints_last (m : Z) (rest : list CCPoint) :
  forall start_point d,
    rest <> [] -> last (waypoints distance_of m start_point rest) d = last rest d.
Proof.
  induction rest as [ | p rest' IH]; intros start_point d Hne; [ contradiction | ].
  cbn [waypoints].
  destruct (Rlt_dec (distance_of start_point p) (IZR m)).
  - destruct rest' as [ | q rest'']; [ reflexivity | ].
    rewrite IH by discriminate. reflexivity.
  - destruct rest' as [ | q rest'']; [ reflexivity | ].
    rewrite last_cons_nonempty by (apply waypoints_nonempty; discriminate).
    rewrite IH by discriminate. reflexivity.
Qed.

(** The loop attaches one box per pair of neighbouring way-points. *)
Lemma walk_add_lines (l : PhysicsLayer) (m : Z) (rest : list CCPoint) :
  forall start_point body,
    walk_by distance_of l m start_point rest body
      = add_lines distance_of l start_point
          (waypoints distance_of m start_point rest) body.
Proof.
  induction rest as [ | p rest' IH]; intros start_point body.
  - reflexivity.
  - cbn [walk_by waypoints].
    destruct (Rlt_dec (distance_of start_point p) (IZR m)).
    + destruct rest' as [ | q rest'']; [ reflexivity | ].
      apply IH.
    + rewrite IH. reflexivity.
Qed.

(** Each way-point but the last is at least the threshold away from the
    one before it. *)
Lemma waypoints_spaced (m : Z) (rest : list CCPoint) :
  forall start_point,
    well_spaced_by distance_of (IZR m) start_point
      (removelast (waypoints distance_of m start_point rest)).
Proof.
  induction rest as [ | p rest' IH]; intros start_point; cbn [waypoints].
  - exact I.
  - destruct (Rlt_dec (distance_of start_point p) (IZR m)) as [Hd | Hd].
    + destruct rest' as [ | q rest'']; [ exact I | apply IH ].
    + destruct rest' as [ | q rest'']; [ exact I | ].
      assert (Hw := waypoints_nonempty m (q :: rest'') p ltac:(discriminate)).
      destruct (waypoints distance_of m p (q :: rest'')) as [ | w ws] eqn:E;
        [ contradiction | ].
      change (removelast (p :: w :: ws)) with (p :: removelast (w :: ws)).
      cbn [well_spaced_by]. split; [ exact Hd | ].
      rewrite <- E. apply IH.
Qed.

(** X2.  The boxes of a body follow the stroke as a chain: there are
    way-points, stroke points in their order and ending with the last
    stroke point, such that the body is the capped body with one box
    attached for each pair of neighbours in the sequence "first point,
    way-points"; and each way-point but the last lies at least
    [min_box_length] from the one before it, by the distance the program
    computed. *)
Theorem boxes_chain_along_stroke (l : PhysicsLayer) (front : CCPoint)
    (rest : list CCPoint) :
  points_being_drawn_ l = front :: rest ->
  exists body l' ways,
    CreatePhysicsBody_by distance_of l = Some (body, l') /\
    body = add_lines distance_of l front ways (capped_body l front rest) /\
    subseq ways rest /\
    last (front :: ways) front = last (front :: rest) front /\
    well_spaced_by distance_of (IZR (float_to_int (brush_radius_ l))) front
      (removelast ways).
Proof.
  intros Hp.
  destruct (build_body_by_walk distance_of l front rest Hp) as [tested [E _]].
  unfold CreatePhysicsBody_by. rewrite E.
  eexists. eexists.
  exists (waypoints distance_of (float_to_int (brush_radius_ l)) front rest).
  split; [ reflexivity | ]. split; [ apply walk_add_lines | ].
  split; [ apply waypoints_subseq | ]. split; [ | apply waypoints_spaced ].
  destruct rest as [ | p rest']; [ reflexivity | ].
  rewrite !last_cons_nonempty
    by (try apply waypoints_nonempty; discriminate).
  apply waypoints_last. discriminate.
Qed.

(** ** What [CreatePhysicsBody] builds *)

Lemma add_lines_cons (l : PhysicsLayer) (start p : CCPoint) (ps : list CCPoint)
    (body : b2Body) :
  add_lines distance_of l start (p :: ps) body
    = add_lines distance_of l p ps (AddLineToBody_by distance_of l body start p).
Proof. reflexivity. Qed.

Lemma add_lines_anatomy (l : PhysicsLayer) (ps : list CCPoint) :
  forall start body,
    m_xf (add_lines distance_of l start ps body) = m_xf body /\
    exists added,
      m_fixtureList (add_lines distance_of l start ps body)
        = added ++ m_fixtureList body /\
      length added = length ps /\
      Forall (fun f => is_polygon f = true /\ layer_material l f) added.
Proof.
  induction ps as [ | p ps IH]; intros start body.
  - split; [ reflexivity | ]. exists []. repeat split. constructor.
  - rewrite add_lines_cons.
    destruct (IH p (AddLineToBody_by distance_of l body start p))
      as [Hx [added [E [L F]]]].
    split; [ rewrite Hx; reflexivity | ].
    exists (added ++ [ hd (cap_fixture l)
                    (m_fixtureList (AddLineToBody_by distance_of l body start p)) ]).
    rewrite E, <- app_assoc, length_app, L. cbn [length app].
    split; [ reflexivity | ]. split; [ lia | ].
    apply Forall_app. split; [ exact F | ].
    constructor; [ | constructor ].
    split; [ reflexivity | repeat split ].
Qed.

(** X3.  [CreatePhysicsBody] fails exactly on an empty point sequence;
    on any other it returns a body, clears the sequence and puts the
    body into the world. *)
Theorem CreatePhysicsBody_fails_iff_empty (l : PhysicsLayer) :
  (CreatePhysicsBody_by distance_of l = None <-> points_being_drawn_ l = []) /\
  (forall body l',
      CreatePhysicsBody_by distance_of l = Some (body, l') ->
      points_being_drawn_ l' = [] /\
      box2d_world_ l' = body :: box2d_world_ l).
Proof.
  split.
  - split.
    + intros Hnone.
      destruct (points_being_drawn_ l) as [ | front rest] eqn:Hp; [ reflexivity | ].
      destruct (build_body_by_walk distance_of l front rest Hp) as [tested [E _]].
      unfold CreatePhysicsBody_by in Hnone. rewrite E in Hnone. discriminate.
    + intros Hp. unfold CreatePhysicsBody_by, build_body_by. rewrite Hp. reflexivity.
  - intros body l' H. unfold CreatePhysicsBody_by in H.
    destruct (build_body_by distance_of l) as [[body0 tested] | ];
      [ | discriminate ].
    injection H as <- <-. split; reflexivity.
Qed.

(** X4.  The body of a stroke stands, unrotated, at the first stroke
    point in simulation units; it has exactly two circles and at most one
    box per further stroke point, at least one if there is a further
    point; and every fixture carries the layer's density, friction and
    restitution. *)
Theorem stroke_body_anatomy (l : PhysicsLayer) (front : CCPoint)
    (rest : list CCPoint) :
  points_being_drawn_ l = front :: rest ->
  exists body l',
    CreatePhysicsBody_by distance_of l = Some (body, l') /\
    GetPosition body = toSim front /\
    xf_q (GetTransform body) = mkRot 0 1 /\
    circle_count body = 2%nat /\
    (box_count body <= length rest)%nat /\
    (rest <> [] -> 1 <= box_count body)%nat /\
    length (m_fixtureList body) = (box_count body + 2)%nat /\
    Forall (layer_material l) (m_fixtureList body).
Proof.
  intros Hp.
  destruct (build_body_by_walk distance_of l front rest Hp) as [tested [E _]].
  unfold CreatePhysicsBody_by. rewrite E.
  eexists. eexists. split; [ reflexivity | ].
  rewrite walk_add_lines.
  set (ways := waypoints distance_of (float_to_int (brush_radius_ l)) front rest).
  destruct (add_lines_anatomy l ways front (capped_body l front rest))
    as [Hx [added [Ef [L F]]]].
  destruct (capped_body_fixtures l front rest) as [c [Hc [Hcirc Hxf]]].
  assert (Hpoly : filter is_polygon added = added).
  { clear - F. induction F as [ | f fs [Hf _] _ IH]; [ reflexivity | ].
    cbn [filter]. rewrite Hf, IH. reflexivity. }
  assert (Hnocirc : filter is_circle added = []).
  { clear - F. induction F as [ | f fs [Hf _] _ IH]; [ reflexivity | ].
    cbn [filter]. unfold is_polygon in Hf. apply negb_true_iff in Hf.
    rewrite Hf, IH. reflexivity. }
  assert (Hcap : is_circle (cap_fixture l) = true) by reflexivity.
  assert (Hcaps_poly : filter is_polygon [ c; cap_fixture l ] = []).
  { cbn [filter]. unfold is_polygon. rewrite Hcirc, Hcap. reflexivity. }
  assert (Hbox : box_count
                   (add_lines distance_of l front ways (capped_body l front rest))
                 = length ways).
  { unfold box_count. rewrite Ef, Hc, filter_app, Hpoly, length_app, Hcaps_poly.
    simpl. lia. }
  unfold GetPosition, GetTransform. rewrite Hx, Hxf. cbn [xf_p xf_q].
  split; [ reflexivity | ]. split.
  { unfold b2Rot_Set. rewrite sin_0, cos_0. reflexivity. }
  split.
  { unfold circle_count. rewrite Ef, Hc, filter_app, Hnocirc.
    cbn [filter app]. rewrite Hcirc, Hcap. reflexivity. }
  rewrite Hbox. split.
  { pose proof (waypoints_subseq (float_to_int (brush_radius_ l)) rest front) as S.
    fold ways in S. clear - S. induction S; simpl; lia. }
  split.
  { intros Hne.
    pose proof (waypoints_nonempty (float_to_int (brush_radius_ l)) rest front Hne).
    fold ways in H. destruct ways; [ contradiction | simpl; lia ]. }
  split.
  { rewrite Ef, Hc, length_app, L. simpl. lia. }
  rewrite Ef, Hc. apply Forall_app. split.
  - eapply Forall_impl; [ | exact F ]. intros f [_ Hm]. exact Hm.
  - assert (Hm : layer_material l (cap_fixture l)) by (repeat split).
    constructor; [ | constructor; [ exact Hm | constructor ] ].
    unfold capped_body, AddSphereToBody, AddShapeToBody, CreateFixture in Hc.
    cbn [m_fixtureList] in Hc. injection Hc as <- _. repeat split.
Qed.

Lemma waypoints_skip (m : Z) (start_point p : CCPoint) (rest : list CCPoint) :
  distance_of start_point p < IZR m -> rest <> [] ->
  waypoints distance_of m start_point (p :: rest)
    = waypoints distance_of m start_point rest.
Proof.
  intros Hd Hne. destruct rest as [ | q rest']; [ contradiction | ].
  change (waypoints distance_of m start_point (p :: q :: rest'))
    with (if Rlt_dec (distance_of start_point p) (IZR m)
          then waypoints distance_of m start_point (q :: rest')
          else p :: waypoints distance_of m p (q :: rest')).
  destruct (Rlt_dec _ _); [ reflexivity | contradiction ].
Qed.

Lemma waypoints_all_near (m : Z) (rest : list CCPoint) :
  forall start_point,
    rest <> [] ->
    Forall (fun p => distance_of start_point p < IZR m) (removelast rest) ->
    waypoints distance_of m start_point rest = [ last rest start_point ].
Proof.
  induction rest as [ | p rest' IH]; intros start_point Hne Hnear;
    [ contradiction | ].
  destruct rest' as [ | q rest''].
  - cbn [waypoints last]. destruct (Rlt_dec _ _); reflexivity.
  - change (removelast (p :: q :: rest'')) with (p :: removelast (q :: rest''))
      in Hnear.
    inversion Hnear as [ | ? ? Hp Hrest]; subst.
    rewrite waypoints_skip by (try discriminate; exact Hp).
    rewrite IH by (try discriminate; exact Hrest). reflexivity.
Qed.

(** X5.  When every stroke point but the last lies nearer to the first
    point than [min_box_length], by the distance the program computed,
    all of them are merged: the body gets a single box, from the first
    point to the last. *)
Theorem near_stroke_single_box (l : PhysicsLayer) (front : CCPoint)
    (rest : list CCPoint) :
  points_being_drawn_ l = front :: rest ->
  rest <> [] ->
  Forall (fun p => distance_of front p < IZR (float_to_int (brush_radius_ l)))
         (removelast rest) ->
  exists body l',
    CreatePhysicsBody_by distance_of l = Some (body, l') /\
    body = AddLineToBody_by distance_of l (capped_body l front rest) front
             (last rest front) /\
    box_count body = 1%nat.
Proof.
  intros Hp Hne Hnear.
  destruct (build_body_by_walk distance_of l front rest Hp) as [tested [E _]].
  unfold CreatePhysicsBody_by. rewrite E.
  eexists. eexists. split; [ reflexivity | ].
  rewrite walk_add_lines, (waypoints_all_near _ _ _ Hne Hnear).
  split; [ reflexivity | ].
  unfold add_lines. cbn [combine fold_left fst snd].
  destruct (AddLineToBody_by_counts l (capped_body l front rest) front
              (last rest front))
    as [-> _].
  destruct (capped_body_fixtures l front rest) as [c [Hc [Hcirc _]]].
  unfold box_count. rewrite Hc. cbn [filter]. unfold is_polygon.
  rewrite Hcirc. reflexivity.
Qed.

(** X6.  The two circles of a body are the fixtures attached first; in
    world coordinates they are centred at the first and at the last
    stroke point, with the brush radius in simulation units, and every
    fixture attached after them is a polygon. *)
Theorem end_circles_at_stroke_ends (l : PhysicsLayer) (front : CCPoint)
    (rest : list CCPoint) :
  points_being_drawn_ l = front :: rest ->
  exists body l' boxes c_last c_first p_last p_first,
    CreatePhysicsBody_by distance_of l = Some (body, l') /\
    m_fixtureList body = boxes ++ [ c_last; c_first ] /\
    Forall (fun f => is_polygon f = true) boxes /\
    m_shape c_first = b2CircleShape p_first (SCREEN_TO_WORLD (brush_radius_ l)) /\
    m_shape c_last = b2CircleShape p_last (SCREEN_TO_WORLD (brush_radius_ l)) /\
    b2Mul (GetTransform body) p_first = toSim front /\
    b2Mul (GetTransform body) p_last = toSim (last (front :: rest) front).
Proof.
  intros Hp.
  destruct (build_body_by_walk distance_of l front rest Hp) as [tested [E _]].
  unfold CreatePhysicsBody_by. rewrite E.
  rewrite walk_add_lines.
  destruct (add_lines_anatomy l
              (waypoints distance_of (float_to_int (brush_radius_ l)) front rest)
              front (capped_body l front rest)) as [Hx [added [Ef [_ F']]]].
  assert (F : Forall (fun f => is_polygon f = true) added).
  { eapply Forall_impl; [ | exact F' ]. intros f [Hf _]. exact Hf. }
  destruct (capped_body_fixtures l front rest) as [c [Hc [_ Hxf]]].
  eexists. eexists. exists added. do 4 eexists.
  split; [ reflexivity | ].
  unfold GetTransform. rewrite Ef, Hx, Hxf.
  unfold capped_body, AddSphereToBody, AddShapeToBody, CreateFixture, CreateBody,
    GetPosition.
  cbn [m_fixtureList m_xf xf_p vx vy m_shape].
  split; [ reflexivity | ]. split; [ exact F | ].
  split; [ reflexivity | ]. split; [ reflexivity | ].
  unfold b2Mul, b2Rot_Set, toSim. cbn [vx vy xf_p xf_q rot_s rot_c].
  rewrite sin_0, cos_0. split; f_equal; ring.
Qed.

End Chain.

Lemma sample_jitter_reachable :
  reachable (CCSizeMake 21 21) (CCSizeMake 640 480) sample_jitter.
Proof.
  unfold sample_jitter.
  apply after_moved_reachable; try apply after_moved_reachable;
    try apply sample_capturing_reachable; try reflexivity; cbn; discriminate.
Qed.

Lemma boxes_chain_along_stroke_witness :
  points_being_drawn_ sample_near = ccp 0 0 :: [ ccp (41 / 4) 0; ccp 100 0 ] /\
  exists body l' ways,
    CreatePhysicsBody_by ccpDistance sample_near = Some (body, l') /\
    body = add_lines ccpDistance sample_near (ccp 0 0) ways
             (capped_body sample_near (ccp 0 0) [ ccp (41 / 4) 0; ccp 100 0 ]) /\
    subseq ways [ ccp (41 / 4) 0; ccp 100 0 ] /\
    last (ccp 0 0 :: ways) (ccp 0 0)
      = last (ccp 0 0 :: [ ccp (41 / 4) 0; ccp 100 0 ]) (ccp 0 0) /\
    well_spaced_by ccpDistance (IZR (float_to_int (brush_radius_ sample_near)))
      (ccp 0 0)
      (removelast ways).
Proof.
  split; [ reflexivity | ].
  apply (boxes_chain_along_stroke ccpDistance sample_near (ccp 0 0)
           [ ccp (41 / 4) 0; ccp 100 0 ]).
  reflexivity.
Defined.

Lemma stroke_body_anatomy_witness :
  points_being_drawn_ sample_near = ccp 0 0 :: [ ccp (41 / 4) 0; ccp 100 0 ] /\
  exists body l',
    CreatePhysicsBody_by ccpDistance sample_near = Some (body, l') /\
    GetPosition body = toSim (ccp 0 0) /\
    xf_q (GetTransform body) = mkRot 0 1 /\
    circle_count body = 2%nat /\
    (box_count body <= length [ ccp (41 / 4) 0; ccp 100 0 ])%nat /\
    ([ ccp (41 / 4) 0; ccp 100 0 ] <> [] -> 1 <= box_count body)%nat /\
    length (m_fixtureList body) = (box_count body + 2)%nat /\
    Forall (layer_material sample_near) (m_fixtureList body).
Proof.
  split; [ reflexivity | ].
  apply (stroke_body_anatomy ccpDistance sample_near (ccp 0 0)
           [ ccp (41 / 4) 0; ccp 100 0 ]).
  reflexivity.
Defined.

Lemma near_stroke_single_box_witness :
  points_being_drawn_ sample_jitter = ccp 0 0 :: [ ccp 5 0; ccp 3 0 ] /\
  [ ccp 5 0; ccp 3 0 ] <> [] /\
  Forall (fun p => ccpDistance (ccp 0 0) p
                   < IZR (float_to_int (brush_radius_ sample_jitter)))
         (removelast [ ccp 5 0; ccp 3 0 ]) /\
  exists body l',
    CreatePhysicsBody_by ccpDistance sample_jitter = Some (body, l') /\
    body = AddLineToBody_by ccpDistance sample_jitter
             (capped_body sample_jitter (ccp 0 0) [ ccp 5 0; ccp 3 0 ])
             (ccp 0 0) (last [ ccp 5 0; ccp 3 0 ] (ccp 0 0)) /\
    box_count body = 1%nat.
Proof.
  assert (H3 : Forall (fun p => ccpDistance (ccp 0 0) p
                               < IZR (float_to_int (brush_radius_ sample_jitter)))
                      (removelast [ ccp 5 0; ccp 3 0 ])).
  { cbn [removelast]. constructor; [ | constructor ].
    rewrite (sample_radius _ sample_jitter_reachable).
    rewrite (float_to_int_eq (21 / 2) 10) by lra.
    rewrite ccpDistance_horizontal; lra. }
  split; [ reflexivity | ]. split; [ discriminate | ]. split; [ exact H3 | ].
  apply (near_stroke_single_box ccpDistance sample_jitter (ccp 0 0)
           [ ccp 5 0; ccp 3 0 ]);
    [ reflexivity | discriminate | exact H3 ].
Defined.

Lemma end_circles_at_stroke_ends_witness :
  points_being_drawn_ sample_near = ccp 0 0 :: [ ccp (41 / 4) 0; ccp 100 0 ] /\
  exists body l' boxes c_last c_first p_last p_first,
    CreatePhysicsBody_by ccpDistance sample_near = Some (body, l') /\
    m_fixtureList body = boxes ++ [ c_last; c_first ] /\
    Forall (fun f => is_polygon f = true) boxes /\
    m_shape c_first
      = b2CircleShape p_first (SCREEN_TO_WORLD (brush_radius_ sample_near)) /\
    m_shape c_last
      = b2CircleShape p_last (SCREEN_TO_WORLD (brush_radius_ sample_near)) /\
    b2Mul (GetTransform body) p_first = toSim (ccp 0 0) /\
    b2Mul (GetTransform body) p_last
      = toSim (last (ccp 0 0 :: [ ccp (41 / 4) 0; ccp 100 0 ]) (ccp 0 0)).
Proof.
  split; [ reflexivity | ].
  apply (end_circles_at_stroke_ends ccpDistance sample_near (ccp 0 0)
           [ ccp (41 / 4) 0; ccp 100 0 ]).
  reflexivity.
Defined.

(** ** More on the bounds of a body *)

Lemma join_extremes_swap (e a b : Extremes) :
  join_extremes (join_extremes e a) b = join_extremes (join_extremes e b) a.
Proof.
  unfold join_extremes. cbn [minX maxX minY maxY].
  rewrite <- !Rmin_assoc, <- !Rmax_assoc.
  rewrite (Rmin_comm (minX a)), (Rmin_comm (minY a)),
    (Rmax_comm (maxX a)), (Rmax_comm (maxY a)).
  reflexivity.
Qed.

Lemma fold_join_permutation (cs cs' : list Extremes) :
  Permutation cs cs' ->
  forall e, fold_left join_extremes cs e = fold_left join_extremes cs' e.
Proof.
  induction 1 as [ | x xs ys _ IH | x y xs | xs ys zs _ IH1 _ IH2 ]; intros e;
    cbn [fold_left].
  - reflexivity.
  - apply IH.
  - rewrite join_extremes_swap. reflexivity.
  - rewrite IH1. apply IH2.
Qed.

(** X7.  The rectangle [CalcBodyBounds] returns does not depend on the
    order in which the fixtures stand in the body's list. *)
Theorem CalcBodyBounds_order_independent (s : CCSize) (b1 b2 : b2Body) :
  m_xf b1 = m_xf b2 ->
  Permutation (m_fixtureList b1) (m_fixtureList b2) ->
  CalcBodyBounds s b1 = CalcBodyBounds s b2.
Proof.
  intros Hx Hperm. unfold CalcBodyBounds, GetTransform.
  rewrite !fold_bounds_join, Hx.
  rewrite (fold_join_permutation _ _
             (Permutation_flat_map (fixture_extents (m_xf b2)) Hperm)).
  reflexivity.
Qed.

Lemma CalcBodyBounds_order_independent_witness :
  m_xf sample_body_two = m_xf sample_body_two_swapped /\
  Permutation (m_fixtureList sample_body_two)
              (m_fixtureList sample_body_two_swapped) /\
  CalcBodyBounds (CCSizeMake 640 480) sample_body_two
    = CalcBodyBounds (CCSizeMake 640 480) sample_body_two_swapped.
Proof.
  assert (H1 : m_xf sample_body_two = m_xf sample_body_two_swapped) by reflexivity.
  assert (H2 : Permutation (m_fixtureList sample_body_two)
                           (m_fixtureList sample_body_two_swapped))
    by apply perm_swap.
  split; [ exact H1 | ]. split; [ exact H2 | ].
  apply (CalcBodyBounds_order_independent (CCSizeMake 640 480) _ _ H1 H2).
Defined.

(** X8.  The rectangle [CalcBodyBounds] returns encloses every fixture:
    each circle's extent and each polygon vertex, taken to screen pixels
    with the y axis flipped, lies between its left and right and between
    its top and bottom edge. *)
Theorem CalcBodyBounds_encloses (s : CCSize) (body : b2Body) (f : b2Fixture)
    (c : Extremes) :
  In f (m_fixtureList body) ->
  In c (fixture_extents (GetTransform body) f) ->
  pt_x (origin (CalcBodyBounds s body)) <= WORLD_TO_SCREEN (minX c) /\
  WORLD_TO_SCREEN (maxX c)
    <= pt_x (origin (CalcBodyBounds s body)) + width (size (CalcBodyBounds s body)) /\
  pt_y (origin (CalcBodyBounds s body)) <= height s - WORLD_TO_SCREEN (maxY c) /\
  height s - WORLD_TO_SCREEN (minY c)
    <= pt_y (origin (CalcBodyBounds s body)) + height (size (CalcBodyBounds s body)).
Proof.
  intros Hf Hc.
  assert (Hcov : extends c
                   (fold_left (bounds_of_fixture (GetTransform body))
                      (m_fixtureList body) initial_extremes)).
  { rewrite fold_bounds_join. apply fold_join_covers.
    apply in_flat_map. exists f. split; assumption. }
  unfold CalcBodyBounds, CCRectMake. cbn [origin size pt_x pt_y width height].
  set (e := fold_left (bounds_of_fixture (GetTransform body))
              (m_fixtureList body) initial_extremes) in *.
  destruct Hcov as [H1 [H2 [H3 H4]]].
  unfold WORLD_TO_SCREEN, PTM_RATIO. repeat split; lra.
Qed.

Lemma CalcBodyBounds_encloses_witness :
  In sample_circle_fixture (m_fixtureList sample_body_two) /\
  In (mkExtremes (3 - 1) (3 + 1) (2 - 1) (2 + 1))
     (fixture_extents (GetTransform sample_body_two) sample_circle_fixture) /\
  pt_x (origin (CalcBodyBounds (CCSizeMake 640 480) sample_body_two))
    <= WORLD_TO_SCREEN (3 - 1) /\
  WORLD_TO_SCREEN (3 + 1)
    <= pt_x (origin (CalcBodyBounds (CCSizeMake 640 480) sample_body_two))
       + width (size (CalcBodyBounds (CCSizeMake 640 480) sample_body_two)) /\
  pt_y (origin (CalcBodyBounds (CCSizeMake 640 480) sample_body_two))
    <= 480 - WORLD_TO_SCREEN (2 + 1) /\
  480 - WORLD_TO_SCREEN (2 - 1)
    <= pt_y (origin (CalcBodyBounds (CCSizeMake 640 480) sample_body_two))
       + height (size (CalcBodyBounds (CCSizeMake 640 480) sample_body_two)).
Proof.
  assert (H1 : In sample_circle_fixture (m_fixtureList sample_body_two))
    by (right; left; reflexivity).
  assert (H2 : In (mkExtremes (3 - 1) (3 + 1) (2 - 1) (2 + 1))
                  (fixture_extents (GetTransform sample_body_two)
                     sample_circle_fixture)).
  { left. unfold GetTransform, sample_body_two, CreateFixture, CreateBody, b2Mul,
      b2Rot_Set.
    cbn [m_xf vx vy xf_p xf_q rot_s rot_c]. rewrite sin_0, cos_0.
    f_equal; ring. }
  split; [ exact H1 | ]. split; [ exact H2 | ].
  apply (CalcBodyBounds_encloses (CCSizeMake 640 480) sample_body_two
           sample_circle_fixture _ H1 H2).
Defined.

(** ** More on the sprite of a body *)

(** X9.  The anchor point of the sprite marks the first stroke point,
    where the body stands: scaled by the size of the texture rectangle
    and counted from its left edge and, in the frame with the y axis
    pointing up, from its lower edge, it gives the coordinates of that
    point. *)
Theorem sprite_anchor_marks_first_point (l : PhysicsLayer) (front : CCPoint)
    (rest : list CCPoint) :
  points_being_drawn_ l = front :: rest ->
  render_target_ l <> None ->
  0 < brush_radius_ l ->
  exists body l' sprite,
    CreatePhysicsBody l = Some (body, l') /\
    CreatePhysicsSprite l' body = Some sprite /\
    pt_x (origin (sp_rect sprite))
      + pt_x (sp_anchor sprite) * width (size (sp_rect sprite))
      = pt_x front /\
    (height (win_size l)
       - (pt_y (origin (sp_rect sprite)) + height (size (sp_rect sprite))))
      + pt_y (sp_anchor sprite) * height (size (sp_rect sprite))
      = pt_y front.
Proof.
  intros Hp Hrt Hr.
  destruct (render_target_ l) as [rt | ] eqn:Ert; [ clear Hrt | contradiction ].
  destruct (build_body_walk l front rest Hp) as [tested [E _]].
  assert (Hb : CreatePhysicsBody l
               = Some (walk l (float_to_int (brush_radius_ l)) front rest
                         (capped_body l front rest),
                       set_points
                         (set_world l
                            (walk l (float_to_int (brush_radius_ l)) front rest
                               (capped_body l front rest) :: box2d_world_ l)) [])).
  { unfold CreatePhysicsBody. rewrite E. reflexivity. }
  set (body := walk l (float_to_int (brush_radius_ l)) front rest
                 (capped_body l front rest)) in *.
  destruct (CreatePhysicsBody_body _ _ _ Hb) as [front' [rest' [Hp' [_ [Hxf Hin]]]]].
  rewrite Hp in Hp'. injection Hp' as <- <-.
  exists body. eexists. eexists. split; [ exact Hb | ].
  unfold CreatePhysicsSprite.
  cbn [render_target_ set_points set_world brush_radius_ win_size].
  rewrite Ert. split; [ reflexivity | ].
  cbn [sp_rect sp_anchor pt_x pt_y].
  pose proof (bounds_cover_circle (GetTransform body) (m_fixtureList body)
                (cap_fixture l) (mkVec2 0 0) (SCREEN_TO_WORLD (brush_radius_ l))
                Hin eq_refl) as Hcov.
  unfold CalcBodyBounds, CCRectMake.
  set (e := fold_left (bounds_of_fixture (GetTransform body)) (m_fixtureList body)
              initial_extremes) in *.
  unfold GetPosition, GetTransform in *. rewrite Hxf in *.
  unfold b2Mul, b2Rot_Set in Hcov.
  cbn [vx vy xf_p xf_q rot_s rot_c] in Hcov. rewrite sin_0, cos_0 in Hcov.
  unfold extends in Hcov. cbn [minX maxX minY maxY] in Hcov.
  cbn [origin size pt_x pt_y width height vx vy xf_p].
  unfold WORLD_TO_SCREEN, SCREEN_TO_WORLD, PTM_RATIO in *.
  destruct Hcov as [H1 [H2 [H3 H4]]].
  split; field; lra.
Qed.

Lemma sprite_anchor_marks_first_point_witness :
  points_being_drawn_ sample_near = ccp 0 0 :: [ ccp (41 / 4) 0; ccp 100 0 ] /\
  render_target_ sample_near <> None /\
  0 < brush_radius_ sample_near /\
  exists body l' sprite,
    CreatePhysicsBody sample_near = Some (body, l') /\
    CreatePhysicsSprite l' body = Some sprite /\
    pt_x (origin (sp_rect sprite))
      + pt_x (sp_anchor sprite) * width (size (sp_rect sprite))
      = pt_x (ccp 0 0) /\
    (height (win_size sample_near)
       - (pt_y (origin (sp_rect sprite)) + height (size (sp_rect sprite))))
      + pt_y (sp_anchor sprite) * height (size (sp_rect sprite))
      = pt_y (ccp 0 0).
Proof.
  assert (H2 : render_target_ sample_near <> None) by (cbn; discriminate).
  assert (H3 : 0 < brush_radius_ sample_near)
    by (rewrite (sample_radius _ sample_near_reachable); lra).
  split; [ reflexivity | ]. split; [ exact H2 | ]. split; [ exact H3 | ].
  apply (sprite_anchor_marks_first_point sample_near (ccp 0 0)
           [ ccp (41 / 4) 0; ccp 100 0 ] eq_refl H2 H3).
Defined.

(** ** More on drawing a line *)

Lemma line_count_below_distance (d : R) (i : nat) :
  0 <= d -> (i < line_count d)%nat -> INR i < d.
Proof.
  intros Hd Hi.
  destruct (line_count_rounds d Hd) as [_ Hup].
  assert (INR i + 1 <= INR (line_count d)).
  { rewrite <- S_INR. apply le_INR. lia. }
  lra.
Qed.

(** X10.  The stamps of [DrawLine] begin at [start] and stop short of
    [end]: with [d] the distance the program computed, a move with
    [d < 1/2] leaves no stamp at all (the point is recorded all the
    same); any other move stamps [start] first and then only places
    strictly between [start] and [end]. *)
Theorem DrawLine_stamps_begin_at_start (distance_of : CCPoint -> CCPoint -> R)
    (l : PhysicsLayer) (start end_ : CCPoint) :
  render_target_ l <> None ->
  0 <= distance_of start end_ ->
  exists l',
    DrawLine_by distance_of l start end_ = Some l' /\
    points_being_drawn_ l' = points_being_drawn_ l ++ [end_] /\
    (distance_of start end_ < 1 / 2 -> brush_stamps l' = brush_stamps l) /\
    (1 / 2 <= distance_of start end_ ->
       exists more,
         brush_stamps l' = brush_stamps l ++ start :: more /\
         forall p, In p more ->
           exists t : R, 0 < t < 1 /\
             pt_x p = pt_x start + (pt_x end_ - pt_x start) * t /\
             pt_y p = pt_y start + (pt_y end_ - pt_y start) * t).
Proof.
  intros Hrt Hd.
  destruct (render_target_ l) as [rt | ] eqn:Ert; [ clear Hrt | contradiction ].
  destruct (DrawLine_by_effect distance_of l rt start end_ Ert) as [l' [E [Hs Hp]]].
  exists l'. split; [ exact E | ]. split; [ exact Hp | ].
  set (d := distance_of start end_) in *.
  destruct (line_count_rounds d Hd) as [Hlo Hup].
  split.
  - intros Hshort.
    assert (Hn : line_count d = 0%nat).
    { destruct (line_count d) as [ | n]; [ reflexivity | ].
      rewrite S_INR in Hup. pose proof (pos_INR n). lra. }
    rewrite Hs, Hn. cbn [seq map]. apply app_nil_r.
  - intros Hlong.
    destruct (line_count d) as [ | n] eqn:Hn; [ cbn [INR] in Hlo; lra | ].
    exists (map (line_position start end_ d) (seq 1 n)). split.
    + rewrite Hs. cbn [seq map]. f_equal. f_equal.
      unfold line_position. cbn [INR]. destruct start as [sx sy]. cbn [pt_x pt_y].
      f_equal; unfold Rdiv; ring.
    + intros p Hin. apply in_map_iff in Hin. destruct Hin as [i [<- Hi]].
      apply in_seq in Hi.
      assert (Hlt : INR i < d)
        by (apply line_count_below_distance; [ exact Hd | rewrite Hn; lia ]).
      assert (Hone : 1 <= INR i) by (apply (le_INR 1); lia).
      assert (Hpos : 0 < d) by lra.
      exists (INR i / d). split; [ | split; reflexivity ].
      split.
      * unfold Rdiv. apply Rmult_lt_0_compat; [ lra | ].
        apply Rinv_0_lt_compat. exact Hpos.
      * apply Rmult_lt_reg_r with d; [ exact Hpos | ].
        unfold Rdiv. rewrite Rmult_assoc, Rinv_l by lra. lra.
Qed.

Lemma DrawLine_stamps_begin_at_start_witness :
  render_target_ sample_capturing <> None /\
  0 <= ccpDistance (ccp 0 0) (ccp 3 4) /\
  exists l',
    DrawLine_by ccpDistance sample_capturing (ccp 0 0) (ccp 3 4) = Some l' /\
    points_being_drawn_ l' = points_being_drawn_ sample_capturing ++ [ccp 3 4] /\
    (ccpDistance (ccp 0 0) (ccp 3 4) < 1 / 2 ->
       brush_stamps l' = brush_stamps sample_capturing) /\
    (1 / 2 <= ccpDistance (ccp 0 0) (ccp 3 4) ->
       exists more,
         brush_stamps l' = brush_stamps sample_capturing ++ ccp 0 0 :: more /\
         forall p, In p more ->
           exists t : R, 0 < t < 1 /\
             pt_x p = pt_x (ccp 0 0) + (pt_x (ccp 3 4) - pt_x (ccp 0 0)) * t /\
             pt_y p = pt_y (ccp 0 0) + (pt_y (ccp 3 4) - pt_y (ccp 0 0)) * t).
Proof.
  assert (H : render_target_ sample_capturing <> None) by (cbn; discriminate).
  split; [ exact H | ]. split; [ apply ccpDistance_nonneg | ].
  apply (DrawLine_stamps_begin_at_start ccpDistance sample_capturing (ccp 0 0)
           (ccp 3 4) H (ccpDistance_nonneg (ccp 0 0) (ccp 3 4))).
Defined.

(** ** The course of a gesture *)

Lemma ccTouchBegan_cases (l l' : PhysicsLayer) (touch : CCTouch) (b : bool) :
  ccTouchBegan l touch = Some (b, l') ->
  (b = false /\ l' = l /\ current_touch_id_ l <> (-1)%Z) \/
  (b = true /\ current_touch_id_ l = (-1)%Z /\
   current_touch_id_ l' = getID touch /\
   points_being_drawn_ l' = [ getLocation touch ] /\
   debug_enabled_ l' = debug_enabled_ l /\
   box2d_world_ l' = box2d_world_ l /\
   ((exists rt, render_target_ l = Some rt /\
                render_target_ l' = Some (visit_brush rt (getLocation touch)) /\
                m_pChildren l' = m_pChildren l /\ next_node l' = next_node l) \/
    (render_target_ l = None /\
     render_target_ l'
       = Some (mkRenderTexture (next_node l) [ getLocation touch ]) /\
     m_pChildren l' = m_pChildren l ++ [ mkNode (next_node l) true None ] /\
     next_node l' = S (next_node l)))).
Proof.
  unfold ccTouchBegan.
  destruct (Z.eqb_spec (current_touch_id_ l) (-1)) as [He | Hne]; cbn [negb].
  - cbn [render_target_ set_touch].
    destruct (render_target_ l) as [rt | ] eqn:Ert.
    + unfold DrawPoint. cbn [render_target_ set_points set_touch]. rewrite Ert.
      intros [= <- <-]. right. repeat split; try assumption.
      left. exists rt. repeat split.
    + unfold CreateRenderTarget. cbn [render_target_ set_touch]. rewrite Ert.
      unfold DrawPoint. cbn.
      intros [= <- <-]. right. repeat split; try assumption.
      right. repeat split.
  - intros [= <- <-]. left. repeat split. exact Hne.
Qed.

Lemma ccTouchMoved_cases (l l' : PhysicsLayer) (touch : CCTouch) :
  ccTouchMoved l touch = Some l' ->
  getID touch = current_touch_id_ l /\
  exists rt rt',
    render_target_ l = Some rt /\ render_target_ l' = Some rt' /\
    rt_node rt' = rt_node rt /\
    points_being_drawn_ l' = points_being_drawn_ l ++ [ getLocation touch ] /\
    current_touch_id_ l' = current_touch_id_ l /\
    m_pChildren l' = m_pChildren l /\
    next_node l' = next_node l /\
    debug_enabled_ l' = debug_enabled_ l /\
    box2d_world_ l' = box2d_world_ l.
Proof.
  unfold ccTouchMoved.
  destruct (Z.eqb_spec (getID touch) (current_touch_id_ l)) as [He | ];
    [ | discriminate ].
  unfold DrawLine. destruct (render_target_ l) as [rt | ] eqn:Ert; [ | discriminate ].
  intros [= <-]. split; [ exact He | ].
  exists rt. eexists. split; [ reflexivity | ]. split; [ reflexivity | ].
  split; [ apply fold_visit_brush_node | ]. repeat split.
Qed.

(** X11.  A gesture records the places of its touches: after an accepted
    [ccTouchBegan] and any run of [ccTouchMoved] for the same touch, the
    point sequence is the place of the first touch followed by the
    places of the moves, in order, and no move fails. *)
Theorem gesture_records_touch_places (l l1 : PhysicsLayer) (down : CCTouch)
    (touches : list CCTouch) :
  ccTouchBegan l down = Some (true, l1) ->
  Forall (fun touch => getID touch = getID down) touches ->
  exists l2,
    moves l1 touches = Some l2 /\
    points_being_drawn_ l2 = getLocation down :: map getLocation touches /\
    current_touch_id_ l2 = getID down /\
    render_target_ l2 <> None.
Proof.
  intros Hb Hids.
  destruct (ccTouchBegan_cases _ _ _ _ Hb)
    as [[Hf _] | [_ [_ [Hid [Hp [_ [_ Hrt]]]]]]]; [ discriminate | ].
  assert (Hrt1 : render_target_ l1 <> None).
  { destruct Hrt as [[rt [_ [-> _]]] | [_ [-> _]]]; discriminate. }
  clear Hb Hrt.
  change (getLocation down :: map getLocation touches)
    with ([ getLocation down ] ++ map getLocation touches).
  rewrite <- Hp. clear Hp.
  revert l1 Hid Hrt1.
  induction Hids as [ | touch touches Ht _ IH]; intros l1 Hid Hrt1.
  - exists l1. cbn [moves map]. rewrite app_nil_r. repeat split; assumption.
  - cbn [moves].
    destruct (render_target_ l1) as [rt | ] eqn:Ert; [ | contradiction ].
    assert (Hm : exists l', ccTouchMoved l1 touch = Some l').
    { unfold ccTouchMoved, DrawLine. rewrite Ht, Hid, Z.eqb_refl, Ert.
      eexists. reflexivity. }
    destruct Hm as [l' Hm]. rewrite Hm.
    destruct (ccTouchMoved_cases _ _ _ Hm)
      as [_ [rt0 [rt' [_ [Hrt' [_ [Hp' [Hid' _]]]]]]]].
    destruct (IH l') as [l2 [E [Hp2 [Hid2 Hrt2]]]].
    + congruence.
    + rewrite Hrt'. discriminate.
    + exists l2. split; [ exact E | ]. split; [ | split; assumption ].
      rewrite Hp2, Hp'. cbn [map]. rewrite <- app_assoc. reflexivity.
Qed.

Lemma gesture_records_touch_places_witness :
  ccTouchBegan sample_layer (sample_touch (ccp 0 0) (ccp 0 0))
    = Some (true, sample_capturing) /\
  Forall (fun touch => getID touch = getID (sample_touch (ccp 0 0) (ccp 0 0)))
         [ sample_touch (ccp 0 0) (ccp 5 0); sample_touch (ccp 5 0) (ccp 3 0) ] /\
  exists l2,
    moves sample_capturing
          [ sample_touch (ccp 0 0) (ccp 5 0); sample_touch (ccp 5 0) (ccp 3 0) ]
      = Some l2 /\
    points_being_drawn_ l2
      = getLocation (sample_touch (ccp 0 0) (ccp 0 0))
        :: map getLocation
             [ sample_touch (ccp 0 0) (ccp 5 0); sample_touch (ccp 5 0) (ccp 3 0) ] /\
    current_touch_id_ l2 = getID (sample_touch (ccp 0 0) (ccp 0 0)) /\
    render_target_ l2 <> None.
Proof.
  assert (H1 : ccTouchBegan sample_layer (sample_touch (ccp 0 0) (ccp 0 0))
               = Some (true, sample_capturing)) by reflexivity.
  assert (H2 : Forall (fun touch => getID touch
                                    = getID (sample_touch (ccp 0 0) (ccp 0 0)))
                 [ sample_touch (ccp 0 0) (ccp 5 0);
                   sample_touch (ccp 5 0) (ccp 3 0) ])
    by (repeat constructor).
  split; [ exact H1 | ]. split; [ exact H2 | ].
  apply (gesture_records_touch_places sample_layer sample_capturing
           (sample_touch (ccp 0 0) (ccp 0 0)) _ H1 H2).
Defined.

Lemma ccTouchEnded_cases (l l' : PhysicsLayer) (touch : CCTouch) :
  ccTouchEnded l touch = Some l' ->
  getID touch = current_touch_id_ l /\
  exists body l0 sprite rt,
    CreatePhysicsBody l = Some (body, l0) /\
    CreatePhysicsSprite l0 body = Some sprite /\
    render_target_ l = Some rt /\
    current_touch_id_ l' = (-1)%Z /\
    render_target_ l' = None /\
    points_being_drawn_ l' = [] /\
    debug_enabled_ l' = debug_enabled_ l /\
    box2d_world_ l' = body :: box2d_world_ l /\
    next_node l' = S (next_node l) /\
    m_pChildren l'
      = filter (fun n => negb (Nat.eqb (node_id n) (rt_node rt)))
          (m_pChildren l
           ++ [ mkNode (next_node l) (negb (debug_enabled_ l)) (Some sprite) ]).
Proof.
  unfold ccTouchEnded.
  destruct (Z.eqb_spec (getID touch) (current_touch_id_ l)) as [He | ];
    [ cbn [negb] | discriminate ].
  destruct (CreatePhysicsBody l) as [[body l0] | ] eqn:Hb; [ | discriminate ].
  pose proof (CreatePhysicsBody_keeps _ _ _ Hb) as Hl0. subst l0.
  destruct (CreatePhysicsSprite _ body) as [sprite | ] eqn:Hs; [ | discriminate ].
  cbn [render_target_ set_points set_world].
  destruct (render_target_ l) as [rt | ] eqn:Ert; [ | discriminate ].
  intros [= <-]. split; [ exact He | ].
  exists body. eexists. exists sprite, rt.
  split; [ reflexivity | ]. split; [ exact Hs | ]. split; [ reflexivity | ].
  cbn. repeat split.
  destruct (debug_enabled_ l); reflexivity.
Qed.

Lemma reachable_gesture_invariant (brush_size win : CCSize) (l : PhysicsLayer) :
  reachable brush_size win l -> gesture_invariant l.
Proof.
  induction 1 as [ | l touch b l' _ IH Hs | l touch l' _ IH Hs
                   | l touch l' _ IH Hs | l _ IH | l step _ IH ].
  - split; intros H; cbn in H; contradiction.
  - destruct (ccTouchBegan_cases _ _ _ _ Hs)
      as [[_ [-> _]] | [_ [_ [_ [Hp [_ [_ Hrt]]]]]]]; [ exact IH | ].
    split; intros _.
    + destruct Hrt as [[rt [_ [-> _]]] | [_ [-> _]]]; discriminate.
    + rewrite Hp. discriminate.
  - destruct (ccTouchMoved_cases _ _ _ Hs)
      as [_ [rt [rt' [_ [Hrt' [_ [Hp _]]]]]]].
    split; intros _.
    + rewrite Hrt'. discriminate.
    + rewrite Hp. intros Hnil. apply app_eq_nil in Hnil. destruct Hnil; discriminate.
  - destruct (ccTouchEnded_cases _ _ _ Hs)
      as [_ [body [l0 [sprite [rt [_ [_ [_ [Hid [Hrt _]]]]]]]]]].
    split; intros Hc; contradiction.
  - exact IH.
  - exact IH.
Qed.

(** X12.  A gesture in progress can always go on and can always be
    finished: in every state the layer reaches, while it is capturing,
    [ccTouchMoved] and [ccTouchEnded] for the touch it follows do not
    fail, and [ccTouchEnded] leaves the layer idle, without render target
    and with an empty point sequence. *)
Theorem gesture_in_progress_never_fails (brush_size win : CCSize)
    (l : PhysicsLayer) (touch : CCTouch) :
  reachable brush_size win l ->
  Capturing l ->
  getID touch = current_touch_id_ l ->
  (exists l', ccTouchMoved l touch = Some l' /\ Capturing l') /\
  (exists l', ccTouchEnded l touch = Some l' /\
              Idle l' /\ render_target_ l' = None /\ points_being_drawn_ l' = []).
Proof.
  intros R Hc Hid.
  destruct (reachable_gesture_invariant _ _ _ R) as [Hrt Hpts].
  specialize (Hrt Hc). specialize (Hpts Hrt).
  destruct (render_target_ l) as [rt | ] eqn:Ert; [ | contradiction ].
  split.
  - unfold ccTouchMoved, DrawLine. rewrite Hid, Z.eqb_refl, Ert.
    eexists. split; [ reflexivity | ]. exact Hc.
  - destruct (points_being_drawn_ l) as [ | front rest] eqn:Hp; [ contradiction | ].
    destruct (build_body_walk l front rest Hp) as [tested [E _]].
    unfold ccTouchEnded. rewrite Hid, Z.eqb_refl. cbn [negb].
    unfold CreatePhysicsBody. rewrite E.
    unfold CreatePhysicsSprite. cbn [render_target_ set_points set_world].
    rewrite Ert. eexists. split; [ reflexivity | ]. repeat split.
Qed.

Lemma gesture_in_progress_never_fails_witness :
  reachable (CCSizeMake 21 21) (CCSizeMake 640 480) sample_near /\
  Capturing sample_near /\
  getID (sample_touch (ccp 100 0) (ccp 120 0)) = current_touch_id_ sample_near /\
  (exists l', ccTouchMoved sample_near (sample_touch (ccp 100 0) (ccp 120 0))
              = Some l' /\ Capturing l') /\
  (exists l', ccTouchEnded sample_near (sample_touch (ccp 100 0) (ccp 120 0))
              = Some l' /\
              Idle l' /\ render_target_ l' = None /\ points_being_drawn_ l' = []).
Proof.
  assert (H2 : Capturing sample_near) by (unfold Capturing; cbn; lia).
  assert (H3 : getID (sample_touch (ccp 100 0) (ccp 120 0))
               = current_touch_id_ sample_near) by reflexivity.
  split; [ exact sample_near_reachable | ]. split; [ exact H2 | ].
  split; [ exact H3 | ].
  apply (gesture_in_progress_never_fails _ _ sample_near
           (sample_touch (ccp 100 0) (ccp 120 0)) sample_near_reachable H2 H3).
Defined.

(** ** The children of the layer *)

Lemma scene_invariant_same_children (l l' : PhysicsLayer) :
  m_pChildren l' = m_pChildren l ->
  next_node l' = next_node l ->
  (forall child, is_render_target l' child = is_render_target l child) ->
  (forall rt', render_target_ l' = Some rt' ->
     exists rt, render_target_ l = Some rt /\ rt_node rt' = rt_node rt) ->
  scene_invariant l -> scene_invariant l'.
Proof.
  intros Hc Hn Hirt Hrt [Hnd [Hlt [Hsp Hin]]].
  unfold scene_invariant. rewrite Hc, Hn.
  split; [ exact Hnd | ]. split; [ exact Hlt | ]. split.
  - intros child Hchild. rewrite Hirt. apply Hsp. exact Hchild.
  - intros rt' Hrt'. destruct (Hrt rt' Hrt') as [rt [E ->]]. apply Hin. exact E.
Qed.

Lemma fresh_not_in (l : PhysicsLayer) :
  (forall child, In child (m_pChildren l) -> (node_id child < next_node l)%nat) ->
  ~ In (next_node l) (map node_id (m_pChildren l)).
Proof.
  intros Hlt Hin. apply in_map_iff in Hin. destruct Hin as [c [E Hc]].
  specialize (Hlt c Hc). lia.
Qed.

Lemma NoDup_filter_ids (keep : CCNode -> bool) (cs : list CCNode) :
  NoDup (map node_id cs) -> NoDup (map node_id (filter keep cs)).
Proof.
  induction cs as [ | c cs IH]; intros Hnd; cbn [filter map]; [ constructor | ].
  inversion Hnd as [ | ? ? Hnotin Hnd']; subst.
  destruct (keep c); [ | apply IH; exact Hnd' ].
  cbn [map]. constructor; [ | apply IH; exact Hnd' ].
  intros Hin. apply Hnotin. apply in_map_iff in Hin.
  destruct Hin as [x [E Hx]]. apply filter_In in Hx.
  apply in_map_iff. exists x. tauto.
Qed.

Lemma reachable_scene_invariant (brush_size win : CCSize) (l : PhysicsLayer) :
  reachable brush_size win l -> scene_invariant l.
Proof.
  induction 1 as [ | l touch b l' _ IH Hs | l touch l' _ IH Hs
                   | l touch l' _ IH Hs | l _ IH | l step _ IH ].
  - split; [ constructor | ]. split; [ intros c [] | ].
    split; [ intros c [] | intros rt Hrt; discriminate Hrt ].
  - destruct (ccTouchBegan_cases _ _ _ _ Hs)
      as [[_ [-> _]] | [_ [_ [_ [_ [_ [_ Hrt]]]]]]]; [ exact IH | ].
    destruct Hrt as [[rt [Ert [Ert' [Hc Hn]]]] | [Ert [Ert' [Hc Hn]]]].
    + apply (scene_invariant_same_children l l' Hc Hn); [ | | exact IH ].
      * intros child. unfold is_render_target. rewrite Ert, Ert'. reflexivity.
      * intros rt' E. rewrite Ert' in E. injection E as <-.
        exists rt. split; [ exact Ert | reflexivity ].
    + destruct IH as [Hnd [Hlt [Hsp Hin]]].
      pose proof (fresh_not_in l Hlt) as Hfresh.
      unfold scene_invariant. rewrite Hc, Hn, Ert'.
      split; [ | split; [ | split ] ].
      * rewrite map_app. cbn [map node_id].
        apply NoDup_app; [ exact Hnd | repeat constructor; intros [] | ].
        intros x Hx [<- | []]. contradiction.
      * intros child Hchild. apply in_app_or in Hchild.
        destruct Hchild as [Hchild | [<- | []]]; [ | cbn; lia ].
        specialize (Hlt child Hchild). lia.
      * intros child Hchild. unfold is_render_target. rewrite Ert'. cbn [rt_node].
        apply in_app_or in Hchild. destruct Hchild as [Hchild | [<- | []]].
        -- rewrite (Hsp child Hchild). unfold is_render_target. rewrite Ert.
           specialize (Hlt child Hchild).
           destruct (Nat.eqb_spec (node_id child) (next_node l)); [ lia | reflexivity ].
        -- cbn. rewrite Nat.eqb_refl. reflexivity.
      * intros rt E. injection E as <-. cbn [rt_node].
        rewrite map_app. apply in_or_app. right. left. reflexivity.
  - destruct (ccTouchMoved_cases _ _ _ Hs)
      as [_ [rt [rt' [Ert [Ert' [Hnode [_ [_ [Hc [Hn _]]]]]]]]]].
    apply (scene_invariant_same_children l l' Hc Hn); [ | | exact IH ].
    + intros child. unfold is_render_target. rewrite Ert, Ert', Hnode. reflexivity.
    + intros rt0 E. rewrite Ert' in E. injection E as <-.
      exists rt. split; [ exact Ert | exact Hnode ].
  - destruct (ccTouchEnded_cases _ _ _ Hs)
      as [_ [body [l0 [sprite [rt [_ [_ [Ert [_ [Ert' [_ [_ [_ [Hn Hc]]]]]]]]]]]]]].
    destruct IH as [Hnd [Hlt [Hsp Hin]]].
    pose proof (fresh_not_in l Hlt) as Hfresh.
    unfold scene_invariant. rewrite Hc, Hn, Ert'.
    split; [ | split; [ | split ] ].
    + apply NoDup_filter_ids. rewrite map_app. cbn [map node_id].
      apply NoDup_app; [ exact Hnd | repeat constructor; intros [] | ].
      intros x Hx [<- | []]. contradiction.
    + intros child Hchild. apply filter_In in Hchild. destruct Hchild as [Hchild _].
      apply in_app_or in Hchild.
      destruct Hchild as [Hchild | [<- | []]]; [ | cbn; lia ].
      specialize (Hlt child Hchild). lia.
    + intros child Hchild. apply filter_In in Hchild.
      destruct Hchild as [Hchild Hkeep].
      unfold is_render_target. rewrite Ert'. cbn [negb].
      apply in_app_or in Hchild. destruct Hchild as [Hchild | [<- | []]].
      * rewrite (Hsp child Hchild). unfold is_render_target. rewrite Ert.
        exact Hkeep.
      * reflexivity.
    + intros rt0 E. discriminate E.
  - destruct IH as [Hnd [Hlt [Hsp Hin]]].
    unfold scene_invariant, ToggleDebug.
    cbn [m_pChildren set_children set_debug next_node render_target_].
    rewrite map_map.
    assert (Hids : map (fun x => node_id
                          (if is_render_target
                                (set_debug l (negb (debug_enabled_ l))) x
                           then x
                           else setVisible
                                  (negb (debug_enabled_
                                           (set_debug l (negb (debug_enabled_ l)))))
                                  x))
                       (m_pChildren l)
                   = map node_id (m_pChildren l)).
    { apply map_ext. intros x. destruct (is_render_target _ x); reflexivity. }
    rewrite Hids.
    split; [ exact Hnd | ]. split; [ | split; [ | exact Hin ] ].
    + intros child Hchild. apply in_map_iff in Hchild.
      destruct Hchild as [c [<- Hc]]. specialize (Hlt c Hc).
      destruct (is_render_target _ c); exact Hlt.
    + intros child Hchild. apply in_map_iff in Hchild.
      destruct Hchild as [c [<- Hc]]. specialize (Hsp c Hc).
      destruct (is_render_target (set_debug l (negb (debug_enabled_ l))) c);
        exact Hsp.
  - exact IH.
Qed.

(** X13.  In every state the layer reaches no node is its child twice,
    the render target is among its children exactly while
    [render_target_] is set, and all its other children are sprites. *)
Theorem children_are_sprites_and_render_target (brush_size win : CCSize)
    (l : PhysicsLayer) :
  reachable brush_size win l ->
  NoDup (map node_id (m_pChildren l)) /\
  (forall child, In child (m_pChildren l) ->
     is_sprite child = negb (is_render_target l child)) /\
  (forall rt, render_target_ l = Some rt ->
     exists child, In child (m_pChildren l) /\ node_id child = rt_node rt /\
                   is_sprite child = false) /\
  (render_target_ l = None ->
     forall child, In child (m_pChildren l) -> is_sprite child = true).
Proof.
  intros R. destruct (reachable_scene_invariant _ _ _ R) as [Hnd [_ [Hsp Hin]]].
  split; [ exact Hnd | ]. split; [ exact Hsp | ]. split.
  - intros rt Ert. specialize (Hin rt Ert). apply in_map_iff in Hin.
    destruct Hin as [child [E Hc]]. exists child.
    split; [ exact Hc | ]. split; [ exact E | ].
    rewrite (Hsp child Hc). unfold is_render_target. rewrite Ert, E, Nat.eqb_refl.
    reflexivity.
  - intros Ert child Hc. rewrite (Hsp child Hc). unfold is_render_target.
    rewrite Ert. reflexivity.
Qed.

Lemma children_are_sprites_and_render_target_witness :
  reachable (CCSizeMake 21 21) (CCSizeMake 640 480) sample_near /\
  NoDup (map node_id (m_pChildren sample_near)) /\
  (forall child, In child (m_pChildren sample_near) ->
     is_sprite child = negb (is_render_target sample_near child)) /\
  (forall rt, render_target_ sample_near = Some rt ->
     exists child, In child (m_pChildren sample_near) /\
                   node_id child = rt_node rt /\ is_sprite child = false) /\
  (render_target_ sample_near = None ->
     forall child, In child (m_pChildren sample_near) -> is_sprite child = true).
Proof.
  split; [ exact sample_near_reachable | ].
  apply (children_are_sprites_and_render_target _ _ sample_near
           sample_near_reachable).
Defined.

(** X14.  Finishing a gesture turns the stroke into one body and one
    sprite: in every state the layer reaches, a successful
    [ccTouchEnded] puts the body [CreatePhysicsBody] builds into the
    world, takes the render target out of the children, keeps all
    sprites in their order and adds behind them the sprite of the new
    body, shown exactly when debug drawing is off. *)
Theorem gesture_end_adds_body_and_sprite (brush_size win : CCSize)
    (l l' : PhysicsLayer) (touch : CCTouch) :
  reachable brush_size win l ->
  ccTouchEnded l touch = Some l' ->
  exists body l0 sprite,
    CreatePhysicsBody l = Some (body, l0) /\
    CreatePhysicsSprite l0 body = Some sprite /\
    sp_body sprite = body /\
    sp_texture sprite = brush_stamps l /\
    box2d_world_ l' = body :: box2d_world_ l /\
    m_pChildren l'
      = filter is_sprite (m_pChildren l)
        ++ [ mkNode (next_node l) (negb (debug_enabled_ l)) (Some sprite) ].
Proof.
  intros R He.
  destruct (reachable_scene_invariant _ _ _ R) as [_ [Hlt [Hsp Hin]]].
  destruct (ccTouchEnded_cases _ _ _ He)
    as [_ [body [l0 [sprite [rt [Hb [Hs [Ert [_ [_ [_ [_ [Hw [_ Hc]]]]]]]]]]]]]].
  exists body, l0, sprite.
  split; [ exact Hb | ]. split; [ exact Hs | ].
  pose proof (CreatePhysicsBody_keeps _ _ _ Hb) as Hl0. subst l0.
  unfold CreatePhysicsSprite in Hs. cbn [render_target_ set_points set_world] in Hs.
  rewrite Ert in Hs. injection Hs as <-. cbn [sp_body sp_texture].
  split; [ reflexivity | ]. split; [ unfold brush_stamps; rewrite Ert; reflexivity | ].
  split; [ exact Hw | ].
  rewrite Hc, filter_app. f_equal.
  - apply filter_ext_in. intros c Hcin. rewrite (Hsp c Hcin).
    unfold is_render_target. rewrite Ert. reflexivity.
  - cbn [filter node_id].
    specialize (Hin rt Ert). apply in_map_iff in Hin.
    destruct Hin as [c [E Hcin]]. specialize (Hlt c Hcin).
    destruct (Nat.eqb_spec (next_node l) (rt_node rt)); [ lia | reflexivity ].
Qed.

Lemma ccTouchEnded_succeeds (brush_size win : CCSize) (l : PhysicsLayer)
    (touch : CCTouch) :
  reachable brush_size win l ->
  Capturing l ->
  getID touch = current_touch_id_ l ->
  exists l', ccTouchEnded l touch = Some l'.
Proof.
  intros R Hc Hid.
  destruct (reachable_gesture_invariant _ _ _ R) as [Hrt Hpts].
  specialize (Hrt Hc). specialize (Hpts Hrt).
  destruct (render_target_ l) as [rt | ] eqn:Ert; [ | contradiction ].
  destruct (points_being_drawn_ l) as [ | front rest] eqn:Hp; [ contradiction | ].
  destruct (build_body_walk l front rest Hp) as [tested [E _]].
  unfold ccTouchEnded. rewrite Hid, Z.eqb_refl. cbn [negb].
  unfold CreatePhysicsBody. rewrite E.
  unfold CreatePhysicsSprite. cbn [render_target_ set_points set_world].
  rewrite Ert. eexists. reflexivity.
Qed.

Lemma sample_near_capturing : Capturing sample_near.
Proof. unfold Capturing. cbn. lia. Qed.

Lemma sample_near_ended :
  ccTouchEnded sample_near (sample_touch (ccp 100 0) (ccp 100 0))
    = Some (after_ended sample_near (sample_touch (ccp 100 0) (ccp 100 0))).
Proof.
  destruct (ccTouchEnded_succeeds _ _ sample_near
              (sample_touch (ccp 100 0) (ccp 100 0))
              sample_near_reachable sample_near_capturing eq_refl) as [l' E].
  unfold after_ended. rewrite E. reflexivity.
Qed.

Lemma gesture_end_adds_body_and_sprite_witness :
  reachable (CCSizeMake 21 21) (CCSizeMake 640 480) sample_near /\
  ccTouchEnded sample_near (sample_touch (ccp 100 0) (ccp 100 0))
    = Some (after_ended sample_near (sample_touch (ccp 100 0) (ccp 100 0))) /\
  exists body l0 sprite,
    CreatePhysicsBody sample_near = Some (body, l0) /\
    CreatePhysicsSprite l0 body = Some sprite /\
    sp_body sprite = body /\
    sp_texture sprite = brush_stamps sample_near /\
    box2d_world_ (after_ended sample_near (sample_touch (ccp 100 0) (ccp 100 0)))
      = body :: box2d_world_ sample_near /\
    m_pChildren (after_ended sample_near (sample_touch (ccp 100 0) (ccp 100 0)))
      = filter is_sprite (m_pChildren sample_near)
        ++ [ mkNode (next_node sample_near) (negb (debug_enabled_ sample_near))
               (Some sprite) ].
Proof.
  split; [ exact sample_near_reachable | ]. split; [ exact sample_near_ended | ].
  apply (gesture_end_adds_body_and_sprite _ _ sample_near _ _
           sample_near_reachable sample_near_ended).
Defined.

(** ** More on the debug toggle *)

Lemma ToggleDebug_twice (l : PhysicsLayer) :
  visibility_follows_debug l -> ToggleDebug (ToggleDebug l) = l.
Proof.
  intros Hinv.
  destruct l as [id rt br rad pts d cs w de re fr ws nx].
  unfold ToggleDebug, set_children, set_debug. simpl.
  rewrite negb_involutive. f_equal.
  rewrite map_map. rewrite <- (map_id cs) at 2.
  apply map_ext_in. intros c Hc.
  specialize (Hinv c Hc). unfold is_render_target in *. simpl in *.
  destruct rt as [rt | ].
  - destruct (Nat.eqb (node_id c) (rt_node rt)) eqn:E.
    + rewrite E. reflexivity.
    + simpl. rewrite E. specialize (Hinv eq_refl).
      destruct c as [n v s]. simpl in *. subst v. reflexivity.
  - specialize (Hinv eq_refl).
    destruct c as [n v s]. simpl in *. subst v. reflexivity.
Qed.

(** X15.  Whatever the layer state, [ToggleDebug] leaves alone which
    nodes are children and what they are, and after one [ToggleDebug]
    two more bring the layer back to where the first left it: three
    toggles do what one does. *)
Theorem ToggleDebug_three_times (l : PhysicsLayer) :
  ToggleDebug (ToggleDebug (ToggleDebug l)) = ToggleDebug l /\
  map node_id (m_pChildren (ToggleDebug l)) = map node_id (m_pChildren l) /\
  map node_sprite (m_pChildren (ToggleDebug l)) = map node_sprite (m_pChildren l) /\
  (forall child, In child (m_pChildren (ToggleDebug l)) ->
     is_render_target l child = false ->
     m_bVisible child = debug_enabled_ l).
Proof.
  split; [ apply ToggleDebug_twice, ToggleDebug_establishes | ].
  unfold ToggleDebug. cbn [m_pChildren set_children]. rewrite !map_map.
  split; [ | split ].
  - apply map_ext. intros c. destruct (is_render_target _ c); reflexivity.
  - apply map_ext. intros c. destruct (is_render_target _ c); reflexivity.
  - intros child Hin Hrt.
    pose proof (ToggleDebug_establishes l child) as H.
    unfold ToggleDebug in H at 1. cbn [m_pChildren set_children] in H.
    specialize (H Hin Hrt). rewrite H. cbn. apply negb_involutive.
Qed.

(** ** The ground *)

Lemma float_to_int_floor (x : R) :
  0 <= x ->
  (0 <= float_to_int x)%Z /\
  IZR (float_to_int x) <= x < IZR (float_to_int x) + 1.
Proof.
  intros Hx. unfold float_to_int.
  destruct (Rle_dec 0 x) as [_ | Hn]; [ | contradiction ].
  destruct (base_Int_part x) as [Hle Hgt].
  split; [ | lra ].
  assert (-1 < Int_part x)%Z by (apply lt_IZR; lra). lia.
Qed.

(** X16.  The ground [InitPhysics] builds is the window cut down to
    whole simulation units: its four edges are the sides of the
    rectangle from the origin to [(W, H)], where [W] and [H] are the
    window's width and height in simulation units with the fraction
    dropped, so that in pixels the right and the upper wall stand inside
    the window, less than 32 pixels from its border. *)
Theorem ground_is_window_in_whole_units (win : CCSize) :
  0 <= width win ->
  0 <= height win ->
  exists W H : Z,
    (0 <= W)%Z /\ (0 <= H)%Z /\
    InitPhysics_ground win
      = [ mkEdge (mkVec2 (IZR W) (IZR H)) (mkVec2 (IZR W) 0);
          mkEdge (mkVec2 0 (IZR H)) (mkVec2 0 0);
          mkEdge (mkVec2 0 (IZR H)) (mkVec2 (IZR W) (IZR H));
          mkEdge (mkVec2 0 0) (mkVec2 (IZR W) 0) ] /\
    WORLD_TO_SCREEN (IZR W) <= width win < WORLD_TO_SCREEN (IZR W) + 32 /\
    WORLD_TO_SCREEN (IZR H) <= height win < WORLD_TO_SCREEN (IZR H) + 32 /\
    Forall (edge_within (SCREEN_TO_WORLD (width win)) (SCREEN_TO_WORLD (height win)))
           (InitPhysics_ground win).
Proof.
  intros Hw Hh.
  assert (Hw' : 0 <= SCREEN_TO_WORLD (width win))
    by (unfold SCREEN_TO_WORLD, PTM_RATIO; lra).
  assert (Hh' : 0 <= SCREEN_TO_WORLD (height win))
    by (unfold SCREEN_TO_WORLD, PTM_RATIO; lra).
  destruct (float_to_int_floor _ Hw') as [HW [HWlo HWhi]].
  destruct (float_to_int_floor _ Hh') as [HH [HHlo HHhi]].
  exists (float_to_int (SCREEN_TO_WORLD (width win))),
         (float_to_int (SCREEN_TO_WORLD (height win))).
  split; [ exact HW | ]. split; [ exact HH | ]. split; [ reflexivity | ].
  apply IZR_le in HW, HH.
  unfold SCREEN_TO_WORLD, WORLD_TO_SCREEN, PTM_RATIO in *.
  split; [ lra | ]. split; [ lra | ].
  unfold InitPhysics_ground, edge_within.
  unfold SCREEN_TO_WORLD, PTM_RATIO.
  repeat (apply Forall_cons; [ cbn [m_vertex1 m_vertex2 vx vy]; lra | ]).
  apply Forall_nil.
Qed.

Lemma ground_is_window_in_whole_units_witness :
  0 <= width (CCSizeMake 650 480) /\
  0 <= height (CCSizeMake 650 480) /\
  exists W H : Z,
    (0 <= W)%Z /\ (0 <= H)%Z /\
    InitPhysics_ground (CCSizeMake 650 480)
      = [ mkEdge (mkVec2 (IZR W) (IZR H)) (mkVec2 (IZR W) 0);
          mkEdge (mkVec2 0 (IZR H)) (mkVec2 0 0);
          mkEdge (mkVec2 0 (IZR H)) (mkVec2 (IZR W) (IZR H));
          mkEdge (mkVec2 0 0) (mkVec2 (IZR W) 0) ] /\
    WORLD_TO_SCREEN (IZR W) <= width (CCSizeMake 650 480)
      < WORLD_TO_SCREEN (IZR W) + 32 /\
    WORLD_TO_SCREEN (IZR H) <= height (CCSizeMake 650 480)
      < WORLD_TO_SCREEN (IZR H) + 32 /\
    Forall (edge_within (SCREEN_TO_WORLD (width (CCSizeMake 650 480)))
                        (SCREEN_TO_WORLD (height (CCSizeMake 650 480))))
           (InitPhysics_ground (CCSizeMake 650 480)).
Proof.
  assert (H1 : 0 <= width (CCSizeMake 650 480)) by (cbn [width]; lra).
  assert (H2 : 0 <= height (CCSizeMake 650 480)) by (cbn [height]; lra).
  split; [ exact H1 | ]. split; [ exact H2 | ].
  apply (ground_is_window_in_whole_units (CCSizeMake 650 480) H1 H2).
Defined.

